(** * QCoroLocalSocket: coroutine awaitables over a local socket

    A shallow embedding of [qcoro/qcorolocalsocket.h].  The header wraps a
    callback-driven local socket into awaitables: an awaitable answers a
    ready-check ([await_ready]), and when the answer is negative it is
    suspended ([await_suspend]), which subscribes lambdas to the socket's
    signals.  The event loop later emits signals; a lambda that decides the
    wait is over resumes the coroutine.

    The socket and the event loop are collaborators: the socket is a record of
    what the header reads from it, and the event loop is a list of events
    dispatched one at a time to the live subscriptions of an awaitable.
    Everything an awaitable does to the outside (subscribing, arming a timer,
    resuming the coroutine) is appended to a trace of effects, so that the
    order and the number of these actions can be stated. *)

From Stdlib Require Import ZArith List Bool Lia String.
From Stdlib Require Import Strings.Byte.
Import ListNotations.
Open Scope Z_scope.

(** ** The socket, as the header observes it *)

(** [QLocalSocket::LocalSocketState]. *)
Inductive LocalSocketState : Type :=
| UnconnectedState
| ConnectingState
| ConnectedState
| ClosingState.

Definition LocalSocketState_eqb (a b : LocalSocketState) : bool :=
  match a, b with
  | UnconnectedState, UnconnectedState
  | ConnectingState, ConnectingState
  | ConnectedState, ConnectedState
  | ClosingState, ClosingState => true
  | _, _ => false
  end.

Definition QByteArray : Type := list byte.

(** [QIODevice::OpenMode]: a set of flags; [ReadWrite] is [ReadOnly | WriteOnly]. *)
Definition OpenMode : Type := Z.
Definition ReadOnly : OpenMode := 1.
Definition WriteOnly : OpenMode := 2.
Definition ReadWrite : OpenMode := Z.lor ReadOnly WriteOnly.

(** The part of a [QLocalSocket] the header depends on: its connection state
    and the bytes waiting in its read buffer. *)
Record QLocalSocket : Type := mkSocket {
  state : LocalSocketState;
  buffer : QByteArray
}.

Definition set_state (s : LocalSocketState) (sock : QLocalSocket) : QLocalSocket :=
  {| state := s; buffer := buffer sock |}.

Definition append_data (data : QByteArray) (sock : QLocalSocket) : QLocalSocket :=
  {| state := state sock; buffer := buffer sock ++ data |}.

(** The connect request itself belongs to the socket library, not to the
    header: it is an interface here.  Depending on the platform the request may
    leave the socket connecting, already connected, or unconnected after a
    failure, so nothing is assumed about the state it leaves. *)
Class QLocalSocketRequests : Type := {
  QLocalSocket_connectToServer : OpenMode -> QLocalSocket -> QLocalSocket;
  QLocalSocket_connectToServer_name : string -> OpenMode -> QLocalSocket -> QLocalSocket;
  QIODevice_readLine : Z -> QLocalSocket -> QByteArray * QLocalSocket
}.

(** [QIODevice::readAll]: every byte of the buffer, which is left empty. *)
Definition QIODevice_readAll (dev : QLocalSocket) : QByteArray * QLocalSocket :=
  (buffer dev, {| state := state dev; buffer := [] |}).

(** [QIODevice::read(maxSize)]: at most [maxSize] bytes from the front of the
    buffer. *)
Definition QIODevice_read (maxSize : Z) (dev : QLocalSocket) : QByteArray * QLocalSocket :=
  (firstn (Z.to_nat maxSize) (buffer dev),
   {| state := state dev; buffer := skipn (Z.to_nat maxSize) (buffer dev) |}).

(** ** Signals, effects and events *)

Inductive Signal : Type :=
| stateChanged
| disconnected
| readyRead.

(** What an awaitable does to the outside world, in the order it does it. *)
Inductive Effect : Type :=
| Connect (sig : Signal)        (* QObject::connect to a signal of the socket *)
| Disconnect (sig : Signal)     (* QObject::disconnect of that connection *)
| TimerStart (msecs : Z)        (* the timeout timer is armed *)
| TimerStop                     (* the timeout timer is disarmed *)
| Resume.                       (* the awaiting coroutine is continued *)

Definition is_Resume (e : Effect) : bool :=
  match e with Resume => true | _ => false end.

Definition is_TimerStart (e : Effect) : bool :=
  match e with TimerStart _ => true | _ => false end.

(** How many times a trace continues the coroutine. *)
Definition resumptions (tr : list Effect) : nat :=
  List.length (filter is_Resume tr).

(** What the event loop may deliver while an awaitable is suspended. *)
Inductive Event : Type :=
| EvStateChanged (newState : LocalSocketState) (* the socket enters newState and emits stateChanged(newState) *)
| EvDisconnected                               (* the socket emits disconnected() *)
| EvReadyRead (data : QByteArray)              (* data arrives and the socket emits readyRead() *)
| EvTimeout.                                   (* the interval of the timeout timer has elapsed *)

(** The lambda a [QMetaObject::Connection] of a wait operation leads to. *)
Inductive Slot : Type :=
| SlotWaitForConnected      (* the lambda of WaitForConnectedOperation::await_suspend *)
| SlotWaitForDisconnected.  (* the lambda of WaitForDisconnectedOperation::await_suspend *)

Definition slot_signal (s : Slot) : Signal :=
  match s with
  | SlotWaitForConnected => stateChanged
  | SlotWaitForDisconnected => disconnected
  end.

(** [timeout_msecs = 30'000], the default argument of the header. *)
Definition default_timeout_msecs : Z := 30000.

Definition with_default (timeout_msecs : option Z) : Z :=
  match timeout_msecs with
  | Some t => t
  | None => default_timeout_msecs
  end.

(** ** WaitOperationBase *)

Module WaitOperationBase.

(** Modelled from the spec: the class template [WaitOperationBase]
    ([impl/waitoperationbase.h]) is included by the header but is not among
    the sources.  The fields are the ones the header uses ([mObj], [mConn])
    and the ones the specification gives the base: an optional timeout
    timer, the completed mark of [resume], and the timed-out outcome.
    [mObj] is the socket as seen through the guarded pointer: [None] is a
    null pointer. *)
Record t : Type := mk {
  mObj : option QLocalSocket;
  mTimeoutTimer : option Z;     (* the timer's interval; None: no timer *)
  mTimerActive : bool;
  mConn : option Slot;          (* None: no live connection *)
  mTimedOut : bool;
  mCompleted : bool;
  effects : list Effect
}.

(** Modelled from the spec: the constructor of the absent base.  "An
    optional duration (default 30 000 ms; 0 or negative disables it)
    started only when suspension actually occurs": a timer exists only for a
    positive duration, and the constructor does not start it. *)
Definition new (obj : option QLocalSocket) (timeout_msecs : Z) : t :=
  {| mObj := obj;
     mTimeoutTimer := if 0 <? timeout_msecs then Some timeout_msecs else None;
     mTimerActive := false;
     mConn := None;
     mTimedOut := false;
     mCompleted := false;
     effects := [] |}.

Definition set_mConn (c : option Slot) (e : list Effect) (op : t) : t :=
  {| mObj := mObj op;
     mTimeoutTimer := mTimeoutTimer op;
     mTimerActive := mTimerActive op;
     mConn := c;
     mTimedOut := mTimedOut op;
     mCompleted := mCompleted op;
     effects := effects op ++ e |}.

Definition set_mObj (obj : option QLocalSocket) (op : t) : t :=
  {| mObj := obj;
     mTimeoutTimer := mTimeoutTimer op;
     mTimerActive := mTimerActive op;
     mConn := mConn op;
     mTimedOut := mTimedOut op;
     mCompleted := mCompleted op;
     effects := effects op |}.

Definition set_mTimedOut (b : bool) (op : t) : t :=
  {| mObj := mObj op;
     mTimeoutTimer := mTimeoutTimer op;
     mTimerActive := mTimerActive op;
     mConn := mConn op;
     mTimedOut := b;
     mCompleted := mCompleted op;
     effects := effects op |}.

(** Modelled from the spec: [startTimeoutTimer] of the absent base, "arms the
    timeout timer"; without a timer there is nothing to arm. *)
Definition startTimeoutTimer (op : t) : t :=
  match mTimeoutTimer op with
  | None => op
  | Some msecs =>
      {| mObj := mObj op;
         mTimeoutTimer := mTimeoutTimer op;
         mTimerActive := true;
         mConn := mConn op;
         mTimedOut := mTimedOut op;
         mCompleted := mCompleted op;
         effects := effects op ++ [TimerStart msecs] |}
  end.

(** Modelled from the spec: the teardown [resume] of the absent base performs,
    "every outstanding subscription (event + timeout)": the event connection
    when one is live, the timer when it is armed. *)
Definition teardown (op : t) : list Effect :=
  match mConn op with
  | Some s => [Disconnect (slot_signal s)]
  | None => []
  end ++
  (if mTimerActive op then [TimerStop] else []).

(** Modelled from the spec: [resume] of the absent base, "tears down every
    outstanding subscription (event + timeout), marks the operation completed
    exactly once (idempotency guard against double-resume ...), then invokes
    the continuation". *)
Definition resume (op : t) : t :=
  if mCompleted op then op
  else
    {| mObj := mObj op;
       mTimeoutTimer := mTimeoutTimer op;
       mTimerActive := false;
       mConn := None;
       mTimedOut := mTimedOut op;
       mCompleted := true;
       effects := effects op ++ teardown op ++ [Resume] |}.

(** Modelled from the spec: the callback of the timeout timer in the absent
    base; "its firing is itself a resumption event", and the outcome is a
    timeout failure. *)
Definition on_timeout (op : t) : t :=
  resume (set_mTimedOut true op).

(** Modelled from the spec: the result-extraction step of the absent base;
    the awaited value tells a reached state from a timeout. *)
Definition await_resume (op : t) : bool :=
  negb (mTimedOut op).

End WaitOperationBase.

(** ** WaitForConnectedOperation *)

Module WaitForConnectedOperation.
Import WaitOperationBase.

(** [WaitForConnectedOperation(QLocalSocket *socket, int timeout_msecs = 30'000)]. *)
Definition new (socket : option QLocalSocket) (timeout_msecs : option Z) : WaitOperationBase.t :=
  WaitOperationBase.new socket (with_default timeout_msecs).

(** [return !mObj || mObj->state() == QLocalSocket::ConnectedState;] *)
Definition await_ready (op : WaitOperationBase.t) : bool :=
  match mObj op with
  | None => true
  | Some sock => LocalSocketState_eqb (state sock) ConnectedState
  end.

(** The lambda connected to [stateChanged]: the [switch] over [newState]. *)
Definition on_stateChanged (newState : LocalSocketState) (op : WaitOperationBase.t)
  : WaitOperationBase.t :=
  match newState with
  | UnconnectedState
  | ConnectingState => op
  | ClosingState => resume op
  | ConnectedState => resume op
  end.

(** [mConn = QObject::connect(mObj, &QLocalSocket::stateChanged, lambda);]
    then [startTimeoutTimer(awaitingCoroutine);].  Connecting to a null
    sender yields an invalid connection. *)
Definition await_suspend (op : WaitOperationBase.t) : WaitOperationBase.t :=
  startTimeoutTimer
    (match mObj op with
     | Some _ => set_mConn (Some SlotWaitForConnected) [Connect stateChanged] op
     | None => set_mConn None [] op
     end).

End WaitForConnectedOperation.

(** ** WaitForDisconnectedOperation *)

Module WaitForDisconnectedOperation.
Import WaitOperationBase.

(** [WaitForDisconnectedOperation(QLocalSocket *socket, int timeout_msecs)]. *)
Definition new (socket : option QLocalSocket) (timeout_msecs : Z) : WaitOperationBase.t :=
  WaitOperationBase.new socket timeout_msecs.

(** [return !mObj || mObj->state() == QLocalSocket::UnconnectedState;] *)
Definition await_ready (op : WaitOperationBase.t) : bool :=
  match mObj op with
  | None => true
  | Some sock => LocalSocketState_eqb (state sock) UnconnectedState
  end.

(** The lambda connected to [disconnected]: [resume(awaitingCoroutine)]. *)
Definition on_disconnected (op : WaitOperationBase.t) : WaitOperationBase.t :=
  resume op.

(** [mConn = QObject::connect(mObj, &QLocalSocket::disconnected, lambda);]
    then [startTimeoutTimer(awaitingCoroutine);]. *)
Definition await_suspend (op : WaitOperationBase.t) : WaitOperationBase.t :=
  startTimeoutTimer
    (match mObj op with
     | Some _ => set_mConn (Some SlotWaitForDisconnected) [Connect disconnected] op
     | None => set_mConn None [] op
     end).

End WaitForDisconnectedOperation.

(** ** The event loop, seen from one wait operation *)

(** The socket changes and emits its signal; a signal reaches a lambda only
    through a live connection, and the timer fires only while it is armed. *)
Definition dispatch (e : Event) (op : WaitOperationBase.t) : WaitOperationBase.t :=
  match e with
  | EvStateChanged newState =>
      let op' := WaitOperationBase.set_mObj
                   (option_map (set_state newState) (WaitOperationBase.mObj op)) op in
      match WaitOperationBase.mConn op' with
      | Some SlotWaitForConnected => WaitForConnectedOperation.on_stateChanged newState op'
      | _ => op'
      end
  | EvDisconnected =>
      match WaitOperationBase.mConn op with
      | Some SlotWaitForDisconnected => WaitForDisconnectedOperation.on_disconnected op
      | _ => op
      end
  | EvReadyRead data =>
      WaitOperationBase.set_mObj
        (option_map (append_data data) (WaitOperationBase.mObj op)) op
  | EvTimeout =>
      if WaitOperationBase.mTimerActive op then WaitOperationBase.on_timeout op else op
  end.

Definition run (evs : list Event) (op : WaitOperationBase.t) : WaitOperationBase.t :=
  fold_left (fun o e => dispatch e o) evs op.

(** What [co_await] does with an awaitable before yielding: the ready-check,
    and the suspension only when the check is negative. *)
Definition co_await {A : Type} (await_ready : A -> bool) (await_suspend : A -> A) (op : A) : A :=
  if await_ready op then op else await_suspend op.

(** The events that end the wait of a suspended operation: the one its lambda
    acts on, and the timer while it is armed. *)
Definition is_trigger (op : WaitOperationBase.t) (e : Event) : bool :=
  match e with
  | EvStateChanged newState =>
      match WaitOperationBase.mConn op, newState with
      | Some SlotWaitForConnected, (ConnectedState | ClosingState) => true
      | _, _ => false
      end
  | EvDisconnected =>
      match WaitOperationBase.mConn op with
      | Some SlotWaitForDisconnected => true
      | _ => false
      end
  | EvReadyRead _ => false
  | EvTimeout => WaitOperationBase.mTimerActive op
  end.

(** A wait operation between its suspension and its resumption. *)
Definition suspended (op : WaitOperationBase.t) : Prop :=
  WaitOperationBase.mCompleted op = false /\
  resumptions (WaitOperationBase.effects op) = 0%nat.

(** ** The read operation of an I/O device *)

Module QCoroIODevice_ReadOperation.

(** Modelled from the spec: the class [QCoroIODevice::ReadOperation]
    ([qcoroiodevice.h]) is included by the header but is not among the
    sources.  It holds the device, the requested read as a callback, and the
    connection to the new-data notification.  The header dereferences
    [mDevice.data()] without a check, so the operation is over a live device. *)
Record t : Type := mk {
  mDevice : QLocalSocket;
  mResultCb : QLocalSocket -> QByteArray * QLocalSocket;
  mConn : bool;                 (* the connection to readyRead is live *)
  effects : list Effect
}.

(** Modelled from the spec: the constructor of the absent base takes the
    device and the requested read, and subscribes to nothing. *)
Definition new (device : QLocalSocket)
    (resultCb : QLocalSocket -> QByteArray * QLocalSocket) : t :=
  {| mDevice := device; mResultCb := resultCb; mConn := false; effects := [] |}.

Definition set_mDevice (device : QLocalSocket) (op : t) : t :=
  {| mDevice := device; mResultCb := mResultCb op; mConn := mConn op;
     effects := effects op |}.

Definition add_effects (e : list Effect) (op : t) : t :=
  {| mDevice := mDevice op; mResultCb := mResultCb op; mConn := mConn op;
     effects := effects op ++ e |}.

(** Modelled from the spec: the ready-check of the absent base, "data already
    available in the device's buffer". *)
Definition await_ready (op : t) : bool :=
  negb (Nat.eqb (List.length (buffer (mDevice op))) 0).

(** Modelled from the spec: the suspension of the absent base subscribes to the
    new-data notification; its lambda calls the virtual [finish]. *)
Definition await_suspend (op : t) : t :=
  {| mDevice := mDevice op; mResultCb := mResultCb op; mConn := true;
     effects := effects op ++ [Connect readyRead] |}.

(** Modelled from the spec: [finish] of the absent base tears its subscription
    down and resumes the coroutine. *)
Definition finish (op : t) : t :=
  {| mDevice := mDevice op; mResultCb := mResultCb op; mConn := false;
     effects := effects op ++
                (if mConn op then [Disconnect readyRead] else []) ++ [Resume] |}.

(** Modelled from the spec: the result extraction of the absent base, "the
    requested operation (read N bytes / read line / read all) is executed
    against the now-ready device and its result is handed back as the awaited
    value". *)
Definition await_resume (op : t) : QByteArray * t :=
  let r := mResultCb op (mDevice op) in
  (fst r, set_mDevice (snd r) op).

End QCoroIODevice_ReadOperation.

(** ** The read operation of the local socket *)

Module ReadOperation.

(** [class ReadOperation final : public QCoroIODevice::ReadOperation], with its
    own member [mStateConn]. *)
Record t : Type := mk {
  base : QCoroIODevice_ReadOperation.t;
  mStateConn : bool             (* the connection to stateChanged is live *)
}.

(** [using QCoroIODevice::ReadOperation::ReadOperation;] *)
Definition new (device : QLocalSocket)
    (resultCb : QLocalSocket -> QByteArray * QLocalSocket) : t :=
  {| base := QCoroIODevice_ReadOperation.new device resultCb; mStateConn := false |}.

Definition mDevice (op : t) : QLocalSocket :=
  QCoroIODevice_ReadOperation.mDevice (base op).

Definition effects (op : t) : list Effect :=
  QCoroIODevice_ReadOperation.effects (base op).

(** [return QCoroIODevice::ReadOperation::await_ready() ||
            mDevice->state() == QLocalSocket::UnconnectedState;] *)
Definition await_ready (op : t) : bool :=
  QCoroIODevice_ReadOperation.await_ready (base op) ||
  LocalSocketState_eqb (state (mDevice op)) UnconnectedState.

(** [QObject::disconnect(mStateConn);] then
    [QCoroIODevice::ReadOperation::finish(awaitingCoroutine);]. *)
Definition finish (op : t) : t :=
  {| base := QCoroIODevice_ReadOperation.finish
               (QCoroIODevice_ReadOperation.add_effects
                  (if mStateConn op then [Disconnect stateChanged] else [])
                  (base op));
     mStateConn := false |}.

(** The lambda connected to [stateChanged]: it reads the state of the device
    and finishes when that is [UnconnectedState]. *)
Definition on_stateChanged (op : t) : t :=
  if LocalSocketState_eqb (state (mDevice op)) UnconnectedState
  then finish op
  else op.

(** [QCoroIODevice::ReadOperation::await_suspend(awaitingCoroutine);] then
    [mStateConn = QObject::connect(device, &QLocalSocket::stateChanged, lambda);]. *)
Definition await_suspend (op : t) : t :=
  {| base := QCoroIODevice_ReadOperation.add_effects [Connect stateChanged]
               (QCoroIODevice_ReadOperation.await_suspend (base op));
     mStateConn := true |}.

(** The awaited value: the result extraction is inherited from the base. *)
Definition await_resume (op : t) : QByteArray * t :=
  let r := QCoroIODevice_ReadOperation.await_resume (base op) in
  (fst r, {| base := snd r; mStateConn := mStateConn op |}).

Definition set_mDevice (device : QLocalSocket) (op : t) : t :=
  {| base := QCoroIODevice_ReadOperation.set_mDevice device (base op);
     mStateConn := mStateConn op |}.

(** The event loop, seen from one read operation.  The lambda of the base
    calls [finish], which is virtual: the override above runs. *)
Definition dispatch (e : Event) (op : t) : t :=
  match e with
  | EvStateChanged newState =>
      let op' := set_mDevice (set_state newState (mDevice op)) op in
      if mStateConn op' then on_stateChanged op' else op'
  | EvReadyRead data =>
      let op' := set_mDevice (append_data data (mDevice op)) op in
      if QCoroIODevice_ReadOperation.mConn (base op') then finish op' else op'
  | EvDisconnected => op
  | EvTimeout => op
  end.

Definition run (evs : list Event) (op : t) : t :=
  fold_left (fun o e => dispatch e o) evs op.

(** A read operation between its suspension and its resumption: both
    subscriptions are live and the coroutine has not been continued. *)
Definition suspended (op : t) : Prop :=
  QCoroIODevice_ReadOperation.mConn (base op) = true /\
  mStateConn op = true /\
  resumptions (effects op) = 0%nat.

End ReadOperation.

(** ** QCoroLocalSocket: the public interface *)

(** [int] is 32 bits wide. *)
Definition INT_MIN : Z := - 2 ^ 31.
Definition INT_MAX : Z := 2 ^ 31 - 1.

(** [static_cast<int>] of a wider signed integer: the value modulo [2 ^ 32],
    in the range of [int]. *)
Definition static_cast_int (n : Z) : Z :=
  (n + 2 ^ 31) mod 2 ^ 32 - 2 ^ 31.

(** [std::chrono::milliseconds]: a count of milliseconds in a signed integer
    wider than [int]. *)
Record milliseconds : Type := mk_milliseconds { count : Z }.

Module QCoroLocalSocket.

(** The wrapper holds a guarded pointer to the socket; [None] is a null
    pointer. *)
Record t : Type := mk { mDevice : option QLocalSocket }.

(** [Awaitable auto waitForConnected(int timeout_msecs = 30'000)]. *)
Definition waitForConnected (this : t) (timeout_msecs : option Z) : WaitOperationBase.t :=
  WaitForConnectedOperation.new (mDevice this) (Some (with_default timeout_msecs)).

(** [return waitForConnected(static_cast<int>(timeout.count()));] *)
Definition waitForConnected_chrono (this : t) (timeout : milliseconds) : WaitOperationBase.t :=
  waitForConnected this (Some (static_cast_int (count timeout))).

(** [Awaitable auto waitForDisconnected(int timeout_msecs = 30'000)]. *)
Definition waitForDisconnected (this : t) (timeout_msecs : option Z) : WaitOperationBase.t :=
  WaitForDisconnectedOperation.new (mDevice this) (with_default timeout_msecs).

(** [return waitForDisconnected(static_cast<int>(timeout.count()));] *)
Definition waitForDisconnected_chrono (this : t) (timeout : milliseconds) : WaitOperationBase.t :=
  waitForDisconnected this (Some (static_cast_int (count timeout))).

Definition openMode_default (openMode : option OpenMode) : OpenMode :=
  match openMode with
  | Some m => m
  | None => ReadWrite
  end.

(** [connectToServer(QIODevice::OpenMode openMode = QIODevice::ReadWrite)]: the
    request on the socket, then [return waitForConnected();].  The socket is
    dereferenced without a check: on a null pointer there is no defined
    result ([None]).  The wrapper is returned as the request leaves it. *)
Definition connectToServer `{QLocalSocketRequests} (this : t) (openMode : option OpenMode)
  : option (t * WaitOperationBase.t) :=
  match mDevice this with
  | None => None
  | Some sock =>
      let this' := {| mDevice := Some (QLocalSocket_connectToServer
                                         (openMode_default openMode) sock) |} in
      Some (this', waitForConnected this' None)
  end.

(** [connectToServer(const QString &name, QIODevice::OpenMode openMode = QIODevice::ReadWrite)]. *)
Definition connectToServer_name `{QLocalSocketRequests} (this : t) (name : string)
    (openMode : option OpenMode) : option (t * WaitOperationBase.t) :=
  match mDevice this with
  | None => None
  | Some sock =>
      let this' := {| mDevice := Some (QLocalSocket_connectToServer_name name
                                         (openMode_default openMode) sock) |} in
      Some (this', waitForConnected this' None)
  end.

(** [readAll], [read] and [readLine] of a wrapper whose device is [dev]: a
    read operation with the matching request of the device as its callback. *)
Definition readAll (dev : QLocalSocket) : ReadOperation.t :=
  ReadOperation.new dev QIODevice_readAll.

Definition read (dev : QLocalSocket) (maxSize : Z) : ReadOperation.t :=
  ReadOperation.new dev (QIODevice_read maxSize).

Definition readLine `{QLocalSocketRequests} (dev : QLocalSocket) (maxSize : option Z)
  : ReadOperation.t :=
  ReadOperation.new dev
    (QIODevice_readLine (match maxSize with Some n => n | None => 0 end)).

End QCoroLocalSocket.

Import WaitOperationBase.

(** The invariant behind the resume-once property: the trace continues the
    coroutine once when the operation is marked completed and never before,
    and a completed operation has no subscription left. *)
Definition resume_once_inv (op : WaitOperationBase.t) : Prop :=
  resumptions (effects op) = (if mCompleted op then 1 else 0)%nat /\
  (mCompleted op = true -> mConn op = None /\ mTimerActive op = false).

(** Every arming of the timer in a trace comes after a subscription to a
    signal ([seen]: a subscription has been made so far). *)
Fixpoint timer_after_connect (seen : bool) (tr : list Effect) : bool :=
  match tr with
  | [] => true
  | Connect _ :: tr' => timer_after_connect true tr'
  | TimerStart _ :: tr' => seen && timer_after_connect seen tr'
  | _ :: tr' => timer_after_connect seen tr'
  end.

(** The timer armings of a trace. *)
Definition timer_starts (tr : list Effect) : list Effect :=
  filter is_TimerStart tr.

(** A socket that has not been connected and has received nothing. *)
Definition idle_socket : QLocalSocket :=
  {| state := UnconnectedState; buffer := [] |}.

(** The events that end the wait of a suspended read operation: new data, and
    the device becoming unconnected. *)
Definition read_trigger (e : Event) : bool :=
  match e with
  | EvReadyRead _ => true
  | EvStateChanged UnconnectedState => true
  | _ => false
  end.

(** What [finish] appends to the trace of a suspended read operation. *)
Definition read_finish_trace : list Effect :=
  [Disconnect stateChanged; Disconnect readyRead; Resume].

(** The timer arming of a suspension: one for a positive timeout. *)
Definition timer_start_trace (timeout_msecs : Z) : list Effect :=
  if 0 <? timeout_msecs then [TimerStart timeout_msecs] else [].

(** The disarming at the resumption of the same operation. *)
Definition timer_stop_trace (timeout_msecs : Z) : list Effect :=
  if 0 <? timeout_msecs then [TimerStop] else [].

(** The events that end a wait for the connected state suspended with
    [timeout_msecs]: a change to Connected or Closing, and the timer when
    there is one. *)
Definition connected_trigger (timeout_msecs : Z) (e : Event) : bool :=
  match e with
  | EvStateChanged (ConnectedState | ClosingState) => true
  | EvTimeout => 0 <? timeout_msecs
  | _ => false
  end.

(** The events that end a wait for the disconnection suspended with
    [timeout_msecs]: the disconnected signal, and the timer when there is
    one. *)
Definition disconnected_trigger (timeout_msecs : Z) (e : Event) : bool :=
  match e with
  | EvDisconnected => true
  | EvTimeout => 0 <? timeout_msecs
  | _ => false
  end.

(** State changes and arriving data: the events that are neither the
    disconnected signal nor the timer. *)
Definition state_or_data (e : Event) : bool :=
  match e with
  | EvStateChanged _ | EvReadyRead _ => true
  | EvDisconnected | EvTimeout => false
  end.

(** The states a connecting socket passes through before it is connected. *)
Definition still_connecting (s : LocalSocketState) : bool :=
  LocalSocketState_eqb s UnconnectedState || LocalSocketState_eqb s ConnectingState.

(** ** The D-Bus example ([examples/dbus/coroutine/main.cpp]) *)

(** What the worker reads of a [QDBusReply<QString>]: its error, valid when
    the call failed, and its value. *)
Record QDBusError : Type := mkError { isValid : bool; message : string }.
Record QDBusReply : Type := mkReply { error : QDBusError; value : string }.

Inductive Severity : Type := InfoMsg | WarningMsg.

(** What the worker does, in order: lines sent to [qInfo()] or [qWarning()]
    (the items streamed into them), and the asynchronous call on the
    interface. *)
Inductive WorkerEffect : Type :=
| Log (sev : Severity) (items : list string)
| AsyncCall (method : string) (arg : Z).

(** [dbusWorker] up to its [co_await]: the line "Sending PING", then
    [iface.asyncCall("blockingPing", 1)]. *)
Definition dbusWorker_request : list WorkerEffect :=
  [Log InfoMsg ["Sending PING"%string]; AsyncCall "blockingPing" 1].

(** [dbusWorker] from the [co_await] on, given the reply it yields: the
    warning when the error is valid, and the response line in every case. *)
Definition dbusWorker_resumed (response : QDBusReply) : list WorkerEffect :=
  (if isValid (error response)
   then [Log WarningMsg ["DBus call failed:"%string; message (error response)]]
   else []) ++
  [Log InfoMsg ["Received response:"%string; value response]].

Definition dbusWorker (response : QDBusReply) : list WorkerEffect :=
  dbusWorker_request ++ dbusWorker_resumed response.

Definition is_warning (e : WorkerEffect) : bool :=
  match e with Log WarningMsg _ => true | _ => false end.

Definition is_call (e : WorkerEffect) : bool :=
  match e with AsyncCall _ _ => true | _ => false end.

(** ** Auxiliary facts *)

Lemma resumptions_app (a b : list Effect) :
  resumptions (a ++ b) = (resumptions a + resumptions b)%nat.
Proof.
  unfold resumptions. now rewrite filter_app, length_app.
Qed.

Lemma resumptions_teardown (op : WaitOperationBase.t) :
  resumptions (teardown op) = 0%nat.
Proof.
  unfold teardown.
  destruct (mConn op) as [s|], (mTimerActive op); reflexivity.
Qed.

Lemma LocalSocketState_eqb_eq (a b : LocalSocketState) :
  LocalSocketState_eqb a b = true <-> a = b.
Proof.
  destruct a, b; simpl; split; intro H; try reflexivity; discriminate H.
Qed.

Lemma suspended_inv (op : WaitOperationBase.t) :
  suspended op -> resume_once_inv op.
Proof.
  intros [Hc Hr]. split.
  - now rewrite Hc.
  - rewrite Hc. discriminate.
Qed.

Lemma resume_inv (op : WaitOperationBase.t) :
  resume_once_inv op ->
  resume_once_inv (resume op) /\ mCompleted (resume op) = true.
Proof.
  intros [Hr Hc]. unfold resume, resume_once_inv.
  destruct (mCompleted op) eqn:E.
  - rewrite E. auto.
  - simpl. rewrite !resumptions_app, resumptions_teardown, Hr. auto.
Qed.

Lemma completed_dispatch (e : Event) (op : WaitOperationBase.t) :
  resume_once_inv op -> mCompleted op = true ->
  resume_once_inv (dispatch e op) /\ mCompleted (dispatch e op) = true /\
  effects (dispatch e op) = effects op.
Proof.
  intros [Hr Hc] E. destruct (Hc E) as [Hconn Htim].
  destruct e as [s| |d|]; simpl; rewrite ?Hconn, ?Htim; simpl;
    unfold resume_once_inv; simpl; rewrite ?E; rewrite E in Hr; auto.
Qed.

Lemma completed_run (evs : list Event) (op : WaitOperationBase.t) :
  resume_once_inv op -> mCompleted op = true ->
  resume_once_inv (run evs op) /\ mCompleted (run evs op) = true /\
  effects (run evs op) = effects op.
Proof.
  revert op. induction evs as [|e evs IH]; intros op Hinv E; simpl.
  - auto.
  - destruct (completed_dispatch e op Hinv E) as (Hinv' & E' & Heff).
    destruct (IH _ Hinv' E') as (H1 & H2 & H3).
    repeat split; try apply H1; auto. now rewrite H3.
Qed.

(** An event that is no trigger leaves a suspended operation as it is, apart
    from the socket it observes. *)
Lemma dispatch_no_trigger (e : Event) (op : WaitOperationBase.t) :
  suspended op -> is_trigger op e = false ->
  suspended (dispatch e op) /\
  mConn (dispatch e op) = mConn op /\
  mTimerActive (dispatch e op) = mTimerActive op /\
  mTimeoutTimer (dispatch e op) = mTimeoutTimer op /\
  effects (dispatch e op) = effects op.
Proof.
  intros [Hc Hr] Ht. unfold suspended.
  destruct e as [s| |d|]; simpl in *.
  - destruct (mConn op) as [[|]|] eqn:Ec; simpl; auto.
    destruct s; simpl; try discriminate Ht; rewrite ?Ec; auto.
  - destruct (mConn op) as [[|]|] eqn:Ec; simpl; auto. discriminate Ht.
  - auto.
  - rewrite Ht. auto.
Qed.

(** A trigger completes a suspended operation: everything is torn down and
    the coroutine is continued once. *)
Lemma dispatch_trigger (e : Event) (op : WaitOperationBase.t) :
  suspended op -> is_trigger op e = true ->
  mCompleted (dispatch e op) = true /\
  mConn (dispatch e op) = None /\
  mTimerActive (dispatch e op) = false /\
  effects (dispatch e op) = effects op ++ teardown op ++ [Resume].
Proof.
  intros [Hc Hr] Ht.
  destruct e as [s| |d|]; simpl in *.
  - destruct (mConn op) as [[|]|] eqn:Ec; try discriminate Ht.
    destruct s; try discriminate Ht; simpl; unfold resume; simpl; rewrite Hc;
      simpl; unfold teardown; simpl; rewrite Ec; auto.
  - destruct (mConn op) as [[|]|] eqn:Ec; try discriminate Ht.
    unfold WaitForDisconnectedOperation.on_disconnected, resume. rewrite Hc.
    simpl. auto.
  - discriminate Ht.
  - rewrite Ht. unfold on_timeout, resume. simpl. rewrite Hc. simpl.
    unfold teardown. simpl. auto.
Qed.

Lemma is_trigger_ext (op op' : WaitOperationBase.t) (e : Event) :
  mConn op' = mConn op -> mTimerActive op' = mTimerActive op ->
  is_trigger op' e = is_trigger op e.
Proof.
  intros Hc Ht. destruct e; simpl; now rewrite ?Hc, ?Ht.
Qed.

Lemma existsb_is_trigger_ext (op op' : WaitOperationBase.t) (evs : list Event) :
  mConn op' = mConn op -> mTimerActive op' = mTimerActive op ->
  existsb (is_trigger op') evs = existsb (is_trigger op) evs.
Proof.
  intros Hc Ht. induction evs as [|e evs IH]; simpl.
  - reflexivity.
  - now rewrite IH, (is_trigger_ext op op' e Hc Ht).
Qed.

Lemma run_no_trigger (evs : list Event) (op : WaitOperationBase.t) :
  suspended op -> existsb (is_trigger op) evs = false ->
  suspended (run evs op) /\
  mConn (run evs op) = mConn op /\
  mTimerActive (run evs op) = mTimerActive op /\
  effects (run evs op) = effects op.
Proof.
  revert op. induction evs as [|e evs IH]; intros op Hs Hex; simpl in *.
  - auto.
  - apply orb_false_elim in Hex. destruct Hex as [He Hex].
    destruct (dispatch_no_trigger e op Hs He) as (Hs' & Hc & Ht & _ & Heff).
    rewrite <- (existsb_is_trigger_ext op (dispatch e op) evs Hc Ht) in Hex.
    destruct (IH _ Hs' Hex) as (H1 & H2 & H3 & H4).
    repeat split; try apply H1; congruence.
Qed.

Lemma run_trigger (evs : list Event) (op : WaitOperationBase.t) :
  suspended op -> existsb (is_trigger op) evs = true ->
  mCompleted (run evs op) = true /\
  mConn (run evs op) = None /\
  mTimerActive (run evs op) = false /\
  effects (run evs op) = effects op ++ teardown op ++ [Resume].
Proof.
  revert op. induction evs as [|e evs IH]; intros op Hs Hex; simpl in *.
  - discriminate Hex.
  - destruct (is_trigger op e) eqn:He.
    + destruct (dispatch_trigger e op Hs He) as (Hc & Hconn & Ht & Heff).
      assert (Hinv : resume_once_inv (dispatch e op)).
      { split.
        - rewrite Hc, Heff, !resumptions_app, resumptions_teardown.
          destruct Hs as [_ Hr]. now rewrite Hr.
        - auto. }
      destruct (completed_run evs _ Hinv Hc) as ((_ & Hdown) & Hc' & Heff').
      destruct (Hdown Hc') as [Hd1 Hd2].
      repeat split; auto. now rewrite Heff'.
    + simpl in Hex.
      destruct (dispatch_no_trigger e op Hs He) as (Hs' & Hc & Ht & _ & Heff).
      rewrite <- (existsb_is_trigger_ext op (dispatch e op) evs Hc Ht) in Hex.
      destruct (IH _ Hs' Hex) as (H1 & H2 & H3 & H4).
      repeat split; auto. rewrite H4, Heff.
      unfold teardown. now rewrite Hc, Ht.
Qed.

(** ** The model at work *)

(** The socket starts unconnected, the loop reports Connecting and then
    Connected: the wait is over after the second notification, and the timer
    has not fired. *)
Example connecting_then_connected :
  let op := run [EvStateChanged ConnectingState; EvStateChanged ConnectedState]
                (co_await WaitForConnectedOperation.await_ready
                          WaitForConnectedOperation.await_suspend
                          (WaitForConnectedOperation.new (Some idle_socket) None)) in
  effects op = [Connect stateChanged; TimerStart 30000;
                Disconnect stateChanged; TimerStop; Resume] /\
  WaitOperationBase.await_resume op = true.
Proof. split; reflexivity. Qed.

(** Nothing but the timer fires: the wait ends as timed out, and the event
    connection is torn down. *)
Example only_the_timer_fires :
  let op := run [EvTimeout; EvStateChanged ConnectedState; EvTimeout]
                (WaitForConnectedOperation.await_suspend
                   (WaitForConnectedOperation.new (Some idle_socket) (Some 100))) in
  effects op = [Connect stateChanged; TimerStart 100;
                Disconnect stateChanged; TimerStop; Resume] /\
  WaitOperationBase.await_resume op = false.
Proof. split; reflexivity. Qed.

(** An already connected socket is not waited for. *)
Example connected_is_ready :
  co_await WaitForConnectedOperation.await_ready
           WaitForConnectedOperation.await_suspend
           (WaitForConnectedOperation.new
              (Some {| state := ConnectedState; buffer := [] |}) None) =
  WaitForConnectedOperation.new (Some {| state := ConnectedState; buffer := [] |}) None.
Proof. reflexivity. Qed.

(** Waiting for the disconnection ignores state changes and ends on the
    disconnected signal. *)
Example disconnected_signal :
  effects
    (run [EvStateChanged ClosingState; EvStateChanged UnconnectedState; EvDisconnected]
         (WaitForDisconnectedOperation.await_suspend
            (WaitForDisconnectedOperation.new
               (Some {| state := ConnectedState; buffer := [] |}) 0))) =
  [Connect disconnected; Disconnect disconnected; Resume].
Proof. reflexivity. Qed.

(** Data that arrives ends a read, and the awaited value is that data. *)
Example read_all_after_data :
  let op := ReadOperation.dispatch (EvReadyRead [x68; x69]%byte)
              (ReadOperation.await_suspend
                 (QCoroLocalSocket.readAll {| state := ConnectedState; buffer := [] |})) in
  ReadOperation.effects op =
    [Connect readyRead; Connect stateChanged;
     Disconnect stateChanged; Disconnect readyRead; Resume] /\
  fst (ReadOperation.await_resume op) = [x68; x69]%byte.
Proof. split; reflexivity. Qed.

(** A count beyond the range of int wraps around. *)
Example static_cast_int_wraps :
  static_cast_int (2 ^ 32 + 5) = 5 /\ static_cast_int (2 ^ 31) = - 2 ^ 31 /\
  static_cast_int (-1) = -1 /\ static_cast_int 30000 = 30000.
Proof. repeat split; reflexivity. Qed.

(** ** The resume-once invariant *)

(** C1: a suspended wait operation continues its coroutine exactly once,
    however many trigger events (the primary event, the timeout, or both)
    are delivered: no run of events continues it twice; a run that holds a
    trigger continues it once, with the event connection and the timer torn
    down and the operation marked completed before the continuation; a run
    without a trigger does not continue it; and [resume] called again on a
    resumed operation changes nothing. *)
Theorem resume_exactly_once (op : WaitOperationBase.t) (evs : list Event) :
  suspended op ->
  (resumptions (effects (run evs op)) <= 1)%nat /\
  (existsb (is_trigger op) evs = true ->
   resumptions (effects (run evs op)) = 1%nat /\
   mCompleted (run evs op) = true /\
   mConn (run evs op) = None /\
   mTimerActive (run evs op) = false /\
   effects (run evs op) = effects op ++ teardown op ++ [Resume]) /\
  (existsb (is_trigger op) evs = false ->
   resumptions (effects (run evs op)) = 0%nat) /\
  resume (resume op) = resume op.
Proof.
  intros Hs.
  assert (Hyes : existsb (is_trigger op) evs = true ->
                 resumptions (effects (run evs op)) = 1%nat /\
                 mCompleted (run evs op) = true /\
                 mConn (run evs op) = None /\
                 mTimerActive (run evs op) = false /\
                 effects (run evs op) = effects op ++ teardown op ++ [Resume]).
  { intros Hex. destruct (run_trigger evs op Hs Hex) as (H1 & H2 & H3 & H4).
    repeat split; auto.
    rewrite H4, !resumptions_app, resumptions_teardown.
    destruct Hs as [_ Hr]. now rewrite Hr. }
  assert (Hno : existsb (is_trigger op) evs = false ->
                resumptions (effects (run evs op)) = 0%nat).
  { intros Hex. destruct (run_no_trigger evs op Hs Hex) as (_ & _ & _ & H4).
    rewrite H4. apply Hs. }
  repeat split; try assumption; try (apply Hyes; assumption).
  - destruct (existsb (is_trigger op) evs) eqn:Hex.
    + destruct (Hyes eq_refl) as [H _]. rewrite H. constructor.
    + rewrite (Hno eq_refl). auto.
  - unfold resume at 1. destruct (mCompleted (resume op)) eqn:E; [reflexivity|].
    unfold resume in E. destruct (mCompleted op) eqn:E'; simpl in E; congruence.
Qed.

Lemma resume_exactly_once_witness :
  resumptions
    (effects
       (run [EvStateChanged ConnectingState; EvStateChanged ConnectedState; EvTimeout]
          (WaitForConnectedOperation.await_suspend
             (WaitForConnectedOperation.new (Some idle_socket) None)))) = 1%nat.
Proof.
  destruct (resume_exactly_once
              (WaitForConnectedOperation.await_suspend
                 (WaitForConnectedOperation.new (Some idle_socket) None))
              [EvStateChanged ConnectingState; EvStateChanged ConnectedState; EvTimeout])
    as (_ & H & _).
  - split; reflexivity.
  - apply H. reflexivity.
Defined.

(** ** Waiting for the connected state *)

(** C2: while a WaitForConnectedOperation is suspended, a state change to
    Connecting or Unconnected does not continue the coroutine (the operation
    stays suspended with its subscription, after any number of them), and a
    state change to Connected or Closing resumes it at once. *)
Theorem wait_for_connected_state_changes
    (op : WaitOperationBase.t) (newState : LocalSocketState) (l : list LocalSocketState) :
  suspended op ->
  mConn op = Some SlotWaitForConnected ->
  match newState with
  | UnconnectedState | ConnectingState =>
      effects (dispatch (EvStateChanged newState) op) = effects op /\
      suspended (dispatch (EvStateChanged newState) op) /\
      mConn (dispatch (EvStateChanged newState) op) = Some SlotWaitForConnected
  | ConnectedState | ClosingState =>
      dispatch (EvStateChanged newState) op =
        resume (set_mObj (option_map (set_state newState) (mObj op)) op) /\
      effects (dispatch (EvStateChanged newState) op) =
        effects op ++ teardown op ++ [Resume] /\
      resumptions (effects (dispatch (EvStateChanged newState) op)) = 1%nat /\
      mCompleted (dispatch (EvStateChanged newState) op) = true
  end /\
  (forallb (fun s => LocalSocketState_eqb s UnconnectedState ||
                     LocalSocketState_eqb s ConnectingState) l = true ->
   resumptions (effects (run (map EvStateChanged l) op)) = 0%nat /\
   suspended (run (map EvStateChanged l) op)).
Proof.
  intros Hs Hc. split.
  - destruct newState.
    + destruct (dispatch_no_trigger (EvStateChanged UnconnectedState) op Hs)
        as (H1 & H2 & _ & _ & H5); [simpl; now rewrite Hc|].
      repeat split; try apply H1; congruence.
    + destruct (dispatch_no_trigger (EvStateChanged ConnectingState) op Hs)
        as (H1 & H2 & _ & _ & H5); [simpl; now rewrite Hc|].
      repeat split; try apply H1; congruence.
    + destruct (dispatch_trigger (EvStateChanged ConnectedState) op Hs)
        as (H1 & H2 & H3 & H4); [simpl; now rewrite Hc|].
      repeat split; auto.
      * simpl. now rewrite Hc.
      * rewrite H4, !resumptions_app, resumptions_teardown.
        destruct Hs as [_ Hr]. now rewrite Hr.
    + destruct (dispatch_trigger (EvStateChanged ClosingState) op Hs)
        as (H1 & H2 & H3 & H4); [simpl; now rewrite Hc|].
      repeat split; auto.
      * simpl. now rewrite Hc.
      * rewrite H4, !resumptions_app, resumptions_teardown.
        destruct Hs as [_ Hr]. now rewrite Hr.
  - intros Hall.
    assert (Hex : existsb (is_trigger op) (map EvStateChanged l) = false).
    { induction l as [|s l IH]; simpl in *; [reflexivity|].
      apply andb_true_iff in Hall. destruct Hall as [Hs0 Hall].
      rewrite Hc, (IH Hall).
      destruct s; simpl in Hs0; try discriminate Hs0; reflexivity. }
    destruct (run_no_trigger _ op Hs Hex) as (H1 & _ & _ & H4).
    split; [rewrite H4; apply Hs | exact H1].
Qed.

Lemma wait_for_connected_state_changes_witness :
  effects
    (dispatch (EvStateChanged ClosingState)
       (WaitForConnectedOperation.await_suspend
          (WaitForConnectedOperation.new (Some idle_socket) None))) =
  [Connect stateChanged; TimerStart 30000; Disconnect stateChanged; TimerStop; Resume].
Proof.
  destruct (wait_for_connected_state_changes
              (WaitForConnectedOperation.await_suspend
                 (WaitForConnectedOperation.new (Some idle_socket) None))
              ClosingState [ConnectingState; UnconnectedState])
    as ((_ & H & _) & _).
  - split; reflexivity.
  - reflexivity.
  - rewrite H. reflexivity.
Defined.

(** ** Ready-checks *)

(** C4: the ready-check of a WaitForConnectedOperation is positive exactly
    when the socket pointer is null or the socket is in ConnectedState; an
    awaited operation whose check is positive is not suspended, and a newly
    made one then has subscribed to nothing and started no timer. *)
Theorem wait_for_connected_await_ready
    (op : WaitOperationBase.t) (socket : option QLocalSocket) (timeout_msecs : option Z) :
  (WaitForConnectedOperation.await_ready op = true <->
   mObj op = None \/ exists sock, mObj op = Some sock /\ state sock = ConnectedState) /\
  (WaitForConnectedOperation.await_ready op = true ->
   co_await WaitForConnectedOperation.await_ready
            WaitForConnectedOperation.await_suspend op = op) /\
  (WaitForConnectedOperation.await_ready
     (WaitForConnectedOperation.new socket timeout_msecs) = true ->
   let op' := co_await WaitForConnectedOperation.await_ready
                       WaitForConnectedOperation.await_suspend
                       (WaitForConnectedOperation.new socket timeout_msecs) in
   effects op' = [] /\ mConn op' = None /\ mTimerActive op' = false).
Proof.
  split; [|split].
  - unfold WaitForConnectedOperation.await_ready.
    destruct (mObj op) as [sock|].
    + rewrite LocalSocketState_eqb_eq. split.
      * intros H. right. exists sock. auto.
      * intros [H|[sock' [H1 H2]]]; [discriminate H|]. now inversion H1.
    + split; auto.
  - intros H. unfold co_await. now rewrite H.
  - intros H op'. subst op'. unfold co_await. rewrite H. simpl. auto.
Qed.

(** C5: the ready-check of a ReadOperation of the local socket is positive
    exactly when the buffer of the device holds data (the ready-check of the
    base) or the device is in UnconnectedState; an unconnected device with
    an empty buffer is therefore not suspended on, and the awaited value of
    a read-all or read request on it is the empty byte array. *)
Theorem read_operation_await_ready
    (op : ReadOperation.t) (dev : QLocalSocket) (maxSize : Z) :
  (ReadOperation.await_ready op = true <->
   QCoroIODevice_ReadOperation.await_ready (ReadOperation.base op) = true \/
   state (ReadOperation.mDevice op) = UnconnectedState) /\
  (QCoroIODevice_ReadOperation.await_ready (ReadOperation.base op) = true <->
   buffer (ReadOperation.mDevice op) <> []) /\
  (state dev = UnconnectedState -> buffer dev = [] ->
   co_await ReadOperation.await_ready ReadOperation.await_suspend
            (QCoroLocalSocket.readAll dev) = QCoroLocalSocket.readAll dev /\
   fst (ReadOperation.await_resume (QCoroLocalSocket.readAll dev)) = [] /\
   co_await ReadOperation.await_ready ReadOperation.await_suspend
            (QCoroLocalSocket.read dev maxSize) = QCoroLocalSocket.read dev maxSize /\
   fst (ReadOperation.await_resume (QCoroLocalSocket.read dev maxSize)) = []).
Proof.
  split; [|split].
  - unfold ReadOperation.await_ready.
    rewrite orb_true_iff, LocalSocketState_eqb_eq. reflexivity.
  - unfold QCoroIODevice_ReadOperation.await_ready, ReadOperation.mDevice.
    destruct (buffer (QCoroIODevice_ReadOperation.mDevice (ReadOperation.base op)));
      simpl; split; congruence.
  - intros Hst Hbuf.
    unfold co_await, ReadOperation.await_ready, QCoroLocalSocket.readAll,
      QCoroLocalSocket.read, ReadOperation.await_resume,
      ReadOperation.mDevice, QCoroIODevice_ReadOperation.await_ready; simpl.
    rewrite Hst, Hbuf. simpl.
    repeat split. apply firstn_nil.
Qed.

(** ** The timeout timer *)

Lemma timer_starts_app (a b : list Effect) :
  timer_starts (a ++ b) = timer_starts a ++ timer_starts b.
Proof. apply filter_app. Qed.

Lemma timer_starts_teardown (op : WaitOperationBase.t) :
  timer_starts (teardown op ++ [Resume]) = [].
Proof.
  unfold teardown. destruct (mConn op) as [s|], (mTimerActive op); reflexivity.
Qed.

Lemma timer_after_connect_app (tr tr' : list Effect) (seen : bool) :
  timer_starts tr' = [] ->
  timer_after_connect seen (tr ++ tr') = timer_after_connect seen tr.
Proof.
  intros Hno. revert seen. induction tr as [|e tr IH]; intros seen; simpl.
  - revert seen. induction tr' as [|e tr' IH']; intros seen; [reflexivity|].
    destruct e; simpl in *; try discriminate Hno; auto.
  - destruct e; simpl; rewrite ?IH; reflexivity.
Qed.

(** Dispatching an event only ever appends effects that arm no timer. *)
Lemma dispatch_effects (e : Event) (op : WaitOperationBase.t) :
  exists tr, effects (dispatch e op) = effects op ++ tr /\ timer_starts tr = [].
Proof.
  assert (Hres : forall o, exists tr,
             effects (resume o) = effects o ++ tr /\ timer_starts tr = []).
  { intros o. unfold resume. destruct (mCompleted o).
    - exists []. now rewrite app_nil_r.
    - exists (teardown o ++ [Resume]). split; [reflexivity|].
      apply timer_starts_teardown. }
  assert (Hid : exists tr, effects op = effects op ++ tr /\ timer_starts tr = []).
  { exists []. now rewrite app_nil_r. }
  destruct e as [s| |d|]; simpl.
  - destruct (mConn op) as [[|]|]; simpl; auto.
    destruct s; simpl; auto;
      apply (Hres (set_mObj (option_map (set_state _) (mObj op)) op)).
  - destruct (mConn op) as [[|]|]; simpl; auto.
  - auto.
  - destruct (mTimerActive op); auto.
    apply (Hres (set_mTimedOut true op)).
Qed.

Lemma run_effects (evs : list Event) (op : WaitOperationBase.t) :
  exists tr, effects (run evs op) = effects op ++ tr /\ timer_starts tr = [].
Proof.
  revert op. induction evs as [|e evs IH]; intros op; simpl.
  - exists []. now rewrite app_nil_r.
  - destruct (IH (dispatch e op)) as (tr2 & H2 & N2).
    destruct (dispatch_effects e op) as (tr1 & H1 & N1).
    exists (tr1 ++ tr2). split.
    + now rewrite H2, H1, app_assoc.
    + now rewrite timer_starts_app, N1, N2.
Qed.

Lemma await_connected_trace (socket : option QLocalSocket) (timeout_msecs : Z) :
  let op := WaitForConnectedOperation.new socket (Some timeout_msecs) in
  let op' := co_await WaitForConnectedOperation.await_ready
                      WaitForConnectedOperation.await_suspend op in
  effects op' =
    (if WaitForConnectedOperation.await_ready op then []
     else Connect stateChanged ::
          (if 0 <? timeout_msecs then [TimerStart timeout_msecs] else [])) /\
  mTimerActive op' =
    negb (WaitForConnectedOperation.await_ready op) && (0 <? timeout_msecs).
Proof.
  unfold co_await, WaitForConnectedOperation.await_ready. simpl.
  destruct socket as [sock|]; [|split; reflexivity].
  destruct (LocalSocketState_eqb (state sock) ConnectedState); [split; reflexivity|].
  unfold WaitForConnectedOperation.await_suspend, startTimeoutTimer. simpl.
  destruct (0 <? timeout_msecs); split; reflexivity.
Qed.

Lemma await_disconnected_trace (socket : option QLocalSocket) (timeout_msecs : Z) :
  let op := WaitForDisconnectedOperation.new socket timeout_msecs in
  let op' := co_await WaitForDisconnectedOperation.await_ready
                      WaitForDisconnectedOperation.await_suspend op in
  effects op' =
    (if WaitForDisconnectedOperation.await_ready op then []
     else Connect disconnected ::
          (if 0 <? timeout_msecs then [TimerStart timeout_msecs] else [])) /\
  mTimerActive op' =
    negb (WaitForDisconnectedOperation.await_ready op) && (0 <? timeout_msecs).
Proof.
  unfold co_await, WaitForDisconnectedOperation.await_ready. simpl.
  destruct socket as [sock|]; [|split; reflexivity].
  destruct (LocalSocketState_eqb (state sock) UnconnectedState); [split; reflexivity|].
  unfold WaitForDisconnectedOperation.await_suspend, startTimeoutTimer. simpl.
  destruct (0 <? timeout_msecs); split; reflexivity.
Qed.

(** C6: the timeout timer of a wait operation is armed only by the
    suspension: construction does not arm it, an awaited operation whose
    ready-check is positive does nothing at all, no later event arms it, and
    the suspension first subscribes to the primary signal and arms the timer
    after that. *)
Theorem timer_armed_on_suspend_after_subscription
    (socket : option QLocalSocket) (timeout_msecs : Z) (evs : list Event) :
  let opC := WaitForConnectedOperation.new socket (Some timeout_msecs) in
  let opD := WaitForDisconnectedOperation.new socket timeout_msecs in
  let awaitC := co_await WaitForConnectedOperation.await_ready
                         WaitForConnectedOperation.await_suspend opC in
  let awaitD := co_await WaitForDisconnectedOperation.await_ready
                         WaitForDisconnectedOperation.await_suspend opD in
  (effects opC = [] /\ mTimerActive opC = false) /\
  (effects opD = [] /\ mTimerActive opD = false) /\
  (effects awaitC =
     if WaitForConnectedOperation.await_ready opC then []
     else Connect stateChanged ::
          (if 0 <? timeout_msecs then [TimerStart timeout_msecs] else [])) /\
  (effects awaitD =
     if WaitForDisconnectedOperation.await_ready opD then []
     else Connect disconnected ::
          (if 0 <? timeout_msecs then [TimerStart timeout_msecs] else [])) /\
  (mTimerActive awaitC =
     negb (WaitForConnectedOperation.await_ready opC) && (0 <? timeout_msecs)) /\
  (mTimerActive awaitD =
     negb (WaitForDisconnectedOperation.await_ready opD) && (0 <? timeout_msecs)) /\
  timer_starts (effects (run evs awaitC)) = timer_starts (effects awaitC) /\
  timer_starts (effects (run evs awaitD)) = timer_starts (effects awaitD) /\
  timer_after_connect false (effects (run evs awaitC)) = true /\
  timer_after_connect false (effects (run evs awaitD)) = true.
Proof.
  intros opC opD awaitC awaitD.
  destruct (await_connected_trace socket timeout_msecs) as [HC TC].
  destruct (await_disconnected_trace socket timeout_msecs) as [HD TD].
  fold opC in HC, TC. fold awaitC in HC, TC.
  fold opD in HD, TD. fold awaitD in HD, TD.
  destruct (run_effects evs awaitC) as (trC & EC & NC).
  destruct (run_effects evs awaitD) as (trD & ED & ND).
  split; [split; reflexivity|]. split; [split; reflexivity|].
  split; [exact HC|]. split; [exact HD|].
  split; [exact TC|]. split; [exact TD|].
  split; [now rewrite EC, timer_starts_app, NC, app_nil_r|].
  split; [now rewrite ED, timer_starts_app, ND, app_nil_r|].
  split.
  - rewrite EC, (timer_after_connect_app _ _ _ NC), HC.
    destruct (WaitForConnectedOperation.await_ready opC); [reflexivity|].
    destruct (0 <? timeout_msecs); reflexivity.
  - rewrite ED, (timer_after_connect_app _ _ _ ND), HD.
    destruct (WaitForDisconnectedOperation.await_ready opD); [reflexivity|].
    destruct (0 <? timeout_msecs); reflexivity.
Qed.

Lemma no_timer_dispatch (e : Event) (op : WaitOperationBase.t) :
  mTimerActive op = false -> mTimedOut op = false ->
  mTimerActive (dispatch e op) = false /\ mTimedOut (dispatch e op) = false.
Proof.
  intros Ht Ho.
  assert (Hres : forall o, mTimerActive o = false -> mTimedOut o = false ->
                 mTimerActive (resume o) = false /\ mTimedOut (resume o) = false).
  { intros o H1 H2. unfold resume. destruct (mCompleted o); simpl; auto. }
  destruct e as [s| |d|]; simpl.
  - destruct (mConn op) as [[|]|]; simpl; auto.
    destruct s; simpl; auto; apply Hres; assumption.
  - destruct (mConn op) as [[|]|]; simpl; auto.
  - auto.
  - rewrite Ht. auto.
Qed.

Lemma no_timer_run (evs : list Event) (op : WaitOperationBase.t) :
  mTimerActive op = false -> mTimedOut op = false ->
  mTimerActive (run evs op) = false /\ mTimedOut (run evs op) = false.
Proof.
  revert op. induction evs as [|e evs IH]; intros op Ht Ho; simpl.
  - auto.
  - destruct (no_timer_dispatch e op Ht Ho) as [H1 H2]. now apply IH.
Qed.

Lemma run_timeouts_inactive (n : nat) (op : WaitOperationBase.t) :
  mTimerActive op = false -> run (repeat EvTimeout n) op = op.
Proof.
  intros Ht. induction n as [|n IH]; simpl; [reflexivity|].
  rewrite Ht. exact IH.
Qed.

Lemma suspend_connected_without_timer (socket : option QLocalSocket) (timeout_msecs : Z) :
  timeout_msecs <= 0 ->
  let op' := WaitForConnectedOperation.await_suspend
               (WaitForConnectedOperation.new socket (Some timeout_msecs)) in
  mTimerActive op' = false /\ mTimedOut op' = false /\ timer_starts (effects op') = [].
Proof.
  intros Hle. apply Z.ltb_ge in Hle.
  unfold WaitForConnectedOperation.await_suspend, startTimeoutTimer,
    WaitForConnectedOperation.new, WaitOperationBase.new.
  destruct socket; simpl; rewrite Hle; simpl; auto.
Qed.

Lemma suspend_disconnected_without_timer (socket : option QLocalSocket) (timeout_msecs : Z) :
  timeout_msecs <= 0 ->
  let op' := WaitForDisconnectedOperation.await_suspend
               (WaitForDisconnectedOperation.new socket timeout_msecs) in
  mTimerActive op' = false /\ mTimedOut op' = false /\ timer_starts (effects op') = [].
Proof.
  intros Hle. apply Z.ltb_ge in Hle.
  unfold WaitForDisconnectedOperation.await_suspend, startTimeoutTimer,
    WaitForDisconnectedOperation.new, WaitOperationBase.new.
  destruct socket; simpl; rewrite Hle; simpl; auto.
Qed.

(** C7: the timeout of a wait operation defaults to 30000 milliseconds, and
    a timeout of zero or less is accepted as a configuration without a timer:
    the operation is made as usual, suspending it arms nothing, elapsed
    timeouts never reach it, and whatever happens it does not end as timed
    out. *)
Theorem timeout_default_and_disabled
    (this : QCoroLocalSocket.t) (socket : option QLocalSocket)
    (timeout_msecs : Z) (n : nat) (evs : list Event) :
  timeout_msecs <= 0 ->
  mTimeoutTimer (QCoroLocalSocket.waitForConnected this None) = Some 30000 /\
  mTimeoutTimer (QCoroLocalSocket.waitForDisconnected this None) = Some 30000 /\
  mTimeoutTimer (WaitForConnectedOperation.new socket None) = Some 30000 /\
  (let op := QCoroLocalSocket.waitForConnected this (Some timeout_msecs) in
   let op' := WaitForConnectedOperation.await_suspend op in
   mTimeoutTimer op = None /\
   mTimerActive op' = false /\
   timer_starts (effects op') = [] /\
   run (repeat EvTimeout n) op' = op' /\
   mTimedOut (run evs op') = false) /\
  (let op := QCoroLocalSocket.waitForDisconnected this (Some timeout_msecs) in
   let op' := WaitForDisconnectedOperation.await_suspend op in
   mTimeoutTimer op = None /\
   mTimerActive op' = false /\
   timer_starts (effects op') = [] /\
   run (repeat EvTimeout n) op' = op' /\
   mTimedOut (run evs op') = false).
Proof.
  intros Hle.
  assert (Hlt : (0 <? timeout_msecs) = false) by (apply Z.ltb_ge; exact Hle).
  split; [reflexivity|]. split; [reflexivity|]. split; [reflexivity|].
  split.
  - intros op op'.
    destruct (suspend_connected_without_timer
                (QCoroLocalSocket.mDevice this) timeout_msecs Hle) as (H1 & H2 & H3).
    fold op' in H1, H2, H3.
    split; [subst op; simpl; now rewrite Hlt|].
    repeat split; auto.
    + now apply run_timeouts_inactive.
    + now apply no_timer_run.
  - intros op op'.
    destruct (suspend_disconnected_without_timer
                (QCoroLocalSocket.mDevice this) timeout_msecs Hle) as (H1 & H2 & H3).
    fold op' in H1, H2, H3.
    split; [subst op; simpl; now rewrite Hlt|].
    repeat split; auto.
    + now apply run_timeouts_inactive.
    + now apply no_timer_run.
Qed.

Lemma timeout_default_and_disabled_witness :
  run (repeat EvTimeout 3)
      (WaitForConnectedOperation.await_suspend
         (QCoroLocalSocket.waitForConnected
            {| QCoroLocalSocket.mDevice := Some idle_socket |} (Some 0))) =
  WaitForConnectedOperation.await_suspend
    (QCoroLocalSocket.waitForConnected
       {| QCoroLocalSocket.mDevice := Some idle_socket |} (Some 0)).
Proof.
  destruct (timeout_default_and_disabled
              {| QCoroLocalSocket.mDevice := Some idle_socket |}
              (Some idle_socket) 0 3 [EvTimeout; EvStateChanged ConnectedState])
    as (_ & _ & _ & (_ & _ & _ & H & _) & _).
  - lia.
  - exact H.
Defined.

(** ** Connecting *)

(** C8: each connectToServer overload makes the connect request on the
    socket at once and returns the awaitable that waitForConnected makes on
    the socket as the request left it: nothing is subscribed, armed or
    resumed yet, the ready-check of the awaitable looks at the state after the
    request, and awaiting the result is awaiting waitForConnected after the
    request. *)
Theorem connectToServer_composition `{QLocalSocketRequests}
    (sock : QLocalSocket) (name : string) (openMode : option OpenMode) :
  let this := {| QCoroLocalSocket.mDevice := Some sock |} in
  let requested := {| QCoroLocalSocket.mDevice :=
      Some (QLocalSocket_connectToServer
              (QCoroLocalSocket.openMode_default openMode) sock) |} in
  let requested_name := {| QCoroLocalSocket.mDevice :=
      Some (QLocalSocket_connectToServer_name name
              (QCoroLocalSocket.openMode_default openMode) sock) |} in
  let waiting (op : WaitOperationBase.t) :=
    effects op = [] /\ mConn op = None /\ mTimerActive op = false /\
    mCompleted op = false in
  QCoroLocalSocket.connectToServer this openMode =
    Some (requested, QCoroLocalSocket.waitForConnected requested None) /\
  QCoroLocalSocket.connectToServer_name this name openMode =
    Some (requested_name, QCoroLocalSocket.waitForConnected requested_name None) /\
  waiting (QCoroLocalSocket.waitForConnected requested None) /\
  waiting (QCoroLocalSocket.waitForConnected requested_name None) /\
  WaitForConnectedOperation.await_ready
    (QCoroLocalSocket.waitForConnected requested None) =
    LocalSocketState_eqb
      (state (QLocalSocket_connectToServer
                (QCoroLocalSocket.openMode_default openMode) sock))
      ConnectedState /\
  WaitForConnectedOperation.await_ready
    (QCoroLocalSocket.waitForConnected requested_name None) =
    LocalSocketState_eqb
      (state (QLocalSocket_connectToServer_name name
                (QCoroLocalSocket.openMode_default openMode) sock))
      ConnectedState /\
  option_map
    (fun r => co_await WaitForConnectedOperation.await_ready
                       WaitForConnectedOperation.await_suspend (snd r))
    (QCoroLocalSocket.connectToServer this openMode) =
  Some (co_await WaitForConnectedOperation.await_ready
                 WaitForConnectedOperation.await_suspend
                 (QCoroLocalSocket.waitForConnected requested None)).
Proof.
  intros this requested requested_name waiting.
  subst waiting. simpl. repeat split; reflexivity.
Qed.

(** C10: both connectToServer overloads wait with the default timeout of
    30000 milliseconds whatever their arguments are: wherever the call is
    defined, the timer of the returned awaitable has that interval, and the
    awaitable is the one waitForConnected makes when called without a
    timeout; neither overload takes a timeout. *)
Theorem connectToServer_default_timeout `{QLocalSocketRequests}
    (this : QCoroLocalSocket.t) (name : string) (openMode : option OpenMode) :
  option_map (fun r => mTimeoutTimer (snd r))
             (QCoroLocalSocket.connectToServer this openMode) =
  option_map (fun _ => Some 30000) (QCoroLocalSocket.mDevice this) /\
  option_map (fun r => mTimeoutTimer (snd r))
             (QCoroLocalSocket.connectToServer_name this name openMode) =
  option_map (fun _ => Some 30000) (QCoroLocalSocket.mDevice this) /\
  option_map snd (QCoroLocalSocket.connectToServer this openMode) =
  option_map (fun r => QCoroLocalSocket.waitForConnected (fst r) None)
             (QCoroLocalSocket.connectToServer this openMode) /\
  option_map snd (QCoroLocalSocket.connectToServer_name this name openMode) =
  option_map (fun r => QCoroLocalSocket.waitForConnected (fst r) None)
             (QCoroLocalSocket.connectToServer_name this name openMode).
Proof.
  unfold QCoroLocalSocket.connectToServer, QCoroLocalSocket.connectToServer_name.
  destruct (QCoroLocalSocket.mDevice this) as [sock|]; simpl; auto.
Qed.


(** ** The chrono overloads *)

Lemma static_cast_int_range (n : Z) :
  INT_MIN <= static_cast_int n <= INT_MAX.
Proof.
  unfold static_cast_int, INT_MIN, INT_MAX.
  pose proof (Z.mod_pos_bound (n + 2 ^ 31) (2 ^ 32) ltac:(lia)). lia.
Qed.

Lemma static_cast_int_congruent (n : Z) :
  (static_cast_int n - n) mod 2 ^ 32 = 0.
Proof.
  unfold static_cast_int.
  rewrite (Z.mod_eq (n + 2 ^ 31) (2 ^ 32)) by lia.
  replace (n + 2 ^ 31 - 2 ^ 32 * ((n + 2 ^ 31) / 2 ^ 32) - 2 ^ 31 - n)
    with ((- ((n + 2 ^ 31) / 2 ^ 32)) * 2 ^ 32) by lia.
  apply Z.mod_mul. lia.
Qed.

Lemma static_cast_int_id (n : Z) :
  INT_MIN <= n <= INT_MAX -> static_cast_int n = n.
Proof.
  unfold static_cast_int, INT_MIN, INT_MAX. intros Hr.
  rewrite Z.mod_small by lia. lia.
Qed.

(** C9: for every duration the chrono overloads of waitForConnected and
    waitForDisconnected make the awaitable the int overloads make for the
    duration's count cast to int; the cast keeps a count in the range of int
    and replaces any other count by the value of the range congruent to it
    modulo 2^32, without any rejection (a count of 2^32 + 5 waits 5
    milliseconds, a count of 2^31 becomes negative and waits without timer). *)
Theorem chrono_overloads_cast (this : QCoroLocalSocket.t) (timeout : milliseconds) :
  QCoroLocalSocket.waitForConnected_chrono this timeout =
    QCoroLocalSocket.waitForConnected this (Some (static_cast_int (count timeout))) /\
  QCoroLocalSocket.waitForDisconnected_chrono this timeout =
    QCoroLocalSocket.waitForDisconnected this (Some (static_cast_int (count timeout))) /\
  INT_MIN <= static_cast_int (count timeout) <= INT_MAX /\
  (static_cast_int (count timeout) - count timeout) mod 2 ^ 32 = 0 /\
  (INT_MIN <= count timeout <= INT_MAX ->
   static_cast_int (count timeout) = count timeout) /\
  (count timeout < INT_MIN \/ INT_MAX < count timeout ->
   static_cast_int (count timeout) <> count timeout) /\
  mTimeoutTimer (QCoroLocalSocket.waitForConnected_chrono this
                   (mk_milliseconds (2 ^ 32 + 5))) = Some 5 /\
  mTimeoutTimer (QCoroLocalSocket.waitForDisconnected_chrono this
                   (mk_milliseconds (2 ^ 31))) = None.
Proof.
  split; [reflexivity|]. split; [reflexivity|].
  split; [apply static_cast_int_range|].
  split; [apply static_cast_int_congruent|].
  split; [apply static_cast_int_id|].
  split; [|split; reflexivity].
  intros Hout Heq.
  pose proof (static_cast_int_range (count timeout)) as Hr.
  rewrite Heq in Hr. lia.
Qed.

(** ** Reading *)

Lemma read_finish_suspended (op : ReadOperation.t) :
  ReadOperation.suspended op ->
  ReadOperation.effects (ReadOperation.finish op) =
    ReadOperation.effects op ++ read_finish_trace /\
  QCoroIODevice_ReadOperation.mConn (ReadOperation.base (ReadOperation.finish op)) = false /\
  ReadOperation.mStateConn (ReadOperation.finish op) = false.
Proof.
  intros (Hc & Hs & _).
  unfold ReadOperation.finish, ReadOperation.effects. simpl.
  rewrite Hc, Hs, <- app_assoc. auto.
Qed.

(** Once both subscriptions are gone, no event reaches the operation. *)
Lemma read_dispatch_finished (e : Event) (op : ReadOperation.t) :
  QCoroIODevice_ReadOperation.mConn (ReadOperation.base op) = false ->
  ReadOperation.mStateConn op = false ->
  QCoroIODevice_ReadOperation.mConn
    (ReadOperation.base (ReadOperation.dispatch e op)) = false /\
  ReadOperation.mStateConn (ReadOperation.dispatch e op) = false /\
  ReadOperation.effects (ReadOperation.dispatch e op) = ReadOperation.effects op.
Proof.
  intros Hc Hs. destruct e as [s| |d|]; simpl; rewrite ?Hc, ?Hs; auto.
Qed.

Lemma read_run_finished (evs : list Event) (op : ReadOperation.t) :
  QCoroIODevice_ReadOperation.mConn (ReadOperation.base op) = false ->
  ReadOperation.mStateConn op = false ->
  QCoroIODevice_ReadOperation.mConn
    (ReadOperation.base (ReadOperation.run evs op)) = false /\
  ReadOperation.mStateConn (ReadOperation.run evs op) = false /\
  ReadOperation.effects (ReadOperation.run evs op) = ReadOperation.effects op.
Proof.
  revert op. induction evs as [|e evs IH]; intros op Hc Hs; simpl.
  - auto.
  - destruct (read_dispatch_finished e op Hc Hs) as (H1 & H2 & H3).
    destruct (IH _ H1 H2) as (H4 & H5 & H6). rewrite H6, H3. auto.
Qed.

Lemma read_dispatch_trigger (e : Event) (op : ReadOperation.t) :
  ReadOperation.suspended op -> read_trigger e = true ->
  ReadOperation.effects (ReadOperation.dispatch e op) =
    ReadOperation.effects op ++ read_finish_trace /\
  QCoroIODevice_ReadOperation.mConn
    (ReadOperation.base (ReadOperation.dispatch e op)) = false /\
  ReadOperation.mStateConn (ReadOperation.dispatch e op) = false.
Proof.
  intros Hsus Ht.
  assert (Hset : forall dev,
             ReadOperation.suspended (ReadOperation.set_mDevice dev op)).
  { intros dev. exact Hsus. }
  destruct Hsus as (Hc & Hs & Hr).
  destruct e as [s| |d|]; try discriminate Ht.
  - destruct s; try discriminate Ht. simpl. rewrite Hs.
    unfold ReadOperation.on_stateChanged. simpl.
    apply (read_finish_suspended _ (Hset (set_state UnconnectedState (ReadOperation.mDevice op)))).
  - simpl. rewrite Hc.
    apply (read_finish_suspended _ (Hset (append_data d (ReadOperation.mDevice op)))).
Qed.

Lemma read_dispatch_no_trigger (e : Event) (op : ReadOperation.t) :
  ReadOperation.suspended op -> read_trigger e = false ->
  ReadOperation.suspended (ReadOperation.dispatch e op) /\
  ReadOperation.effects (ReadOperation.dispatch e op) = ReadOperation.effects op.
Proof.
  intros Hsus Ht.
  assert (Hset : forall dev,
             ReadOperation.suspended (ReadOperation.set_mDevice dev op)).
  { intros dev. exact Hsus. }
  destruct e as [s| |d|]; try discriminate Ht; simpl; auto.
  destruct Hsus as (Hc & Hs & Hr). rewrite Hs.
  unfold ReadOperation.on_stateChanged. simpl.
  destruct s; try discriminate Ht; simpl; split; auto; apply Hset.
Qed.

Lemma read_run_trigger (evs : list Event) (op : ReadOperation.t) :
  ReadOperation.suspended op -> existsb read_trigger evs = true ->
  ReadOperation.effects (ReadOperation.run evs op) =
    ReadOperation.effects op ++ read_finish_trace /\
  QCoroIODevice_ReadOperation.mConn
    (ReadOperation.base (ReadOperation.run evs op)) = false /\
  ReadOperation.mStateConn (ReadOperation.run evs op) = false.
Proof.
  revert op. induction evs as [|e evs IH]; intros op Hsus Hex; simpl in *.
  - discriminate Hex.
  - destruct (read_trigger e) eqn:He.
    + destruct (read_dispatch_trigger e op Hsus He) as (H1 & H2 & H3).
      destruct (read_run_finished evs _ H2 H3) as (H4 & H5 & H6).
      rewrite H6, H1. auto.
    + simpl in Hex.
      destruct (read_dispatch_no_trigger e op Hsus He) as (Hs' & Heff).
      destruct (IH _ Hs' Hex) as (H1 & H2 & H3). rewrite H1, Heff. auto.
Qed.

Lemma read_run_no_trigger (evs : list Event) (op : ReadOperation.t) :
  ReadOperation.suspended op -> existsb read_trigger evs = false ->
  ReadOperation.suspended (ReadOperation.run evs op) /\
  ReadOperation.effects (ReadOperation.run evs op) = ReadOperation.effects op.
Proof.
  revert op. induction evs as [|e evs IH]; intros op Hsus Hex; simpl in *.
  - auto.
  - apply orb_false_elim in Hex. destruct Hex as [He Hex].
    destruct (read_dispatch_no_trigger e op Hsus He) as (Hs' & Heff).
    destruct (IH _ Hs' Hex) as (H1 & H2). rewrite H2, Heff. auto.
Qed.

(** C3: a suspended ReadOperation is resumed by either of two signals, new
    data or the device becoming unconnected: each of them alone, and the
    first of them in any run of events, tears both subscriptions down and
    then continues the coroutine, once; after the unconnected notification
    the awaited value is what the requested read returns on the unconnected
    device at once, which for a read-all or read request suspended with no
    data is the empty byte array. *)
Theorem read_operation_resume_sources
    (op : ReadOperation.t) (data : QByteArray) (evs : list Event)
    (dev : QLocalSocket) (maxSize : Z) :
  ReadOperation.suspended op ->
  (let op' := ReadOperation.dispatch (EvReadyRead data) op in
   ReadOperation.effects op' = ReadOperation.effects op ++ read_finish_trace /\
   QCoroIODevice_ReadOperation.mConn (ReadOperation.base op') = false /\
   ReadOperation.mStateConn op' = false) /\
  (let op' := ReadOperation.dispatch (EvStateChanged UnconnectedState) op in
   ReadOperation.effects op' = ReadOperation.effects op ++ read_finish_trace /\
   QCoroIODevice_ReadOperation.mConn (ReadOperation.base op') = false /\
   ReadOperation.mStateConn op' = false /\
   fst (ReadOperation.await_resume op') =
     fst (QCoroIODevice_ReadOperation.mResultCb (ReadOperation.base op)
            (set_state UnconnectedState (ReadOperation.mDevice op)))) /\
  (existsb read_trigger evs = true ->
   ReadOperation.effects (ReadOperation.run evs op) =
     ReadOperation.effects op ++ read_finish_trace /\
   resumptions (ReadOperation.effects (ReadOperation.run evs op)) = 1%nat /\
   QCoroIODevice_ReadOperation.mConn
     (ReadOperation.base (ReadOperation.run evs op)) = false /\
   ReadOperation.mStateConn (ReadOperation.run evs op) = false) /\
  (resumptions (ReadOperation.effects (ReadOperation.run evs op)) <= 1)%nat /\
  (ReadOperation.await_ready (QCoroLocalSocket.readAll dev) = false ->
   fst (ReadOperation.await_resume
          (ReadOperation.dispatch (EvStateChanged UnconnectedState)
             (ReadOperation.await_suspend (QCoroLocalSocket.readAll dev)))) = []) /\
  (ReadOperation.await_ready (QCoroLocalSocket.read dev maxSize) = false ->
   fst (ReadOperation.await_resume
          (ReadOperation.dispatch (EvStateChanged UnconnectedState)
             (ReadOperation.await_suspend (QCoroLocalSocket.read dev maxSize)))) = []).
Proof.
  intros Hsus.
  assert (Hone : resumptions (ReadOperation.effects op ++ read_finish_trace) = 1%nat).
  { rewrite resumptions_app. destruct Hsus as (_ & _ & Hr). now rewrite Hr. }
  assert (Hempty : forall d, ReadOperation.await_ready
                               (ReadOperation.new d QIODevice_readAll) = false ->
                             buffer d = []).
  { intros d. unfold ReadOperation.await_ready, ReadOperation.new,
      QCoroIODevice_ReadOperation.await_ready. simpl.
    destruct (buffer d); [reflexivity|discriminate]. }
  split; [|split; [|split; [|split; [|split]]]].
  - apply (read_dispatch_trigger (EvReadyRead data) op Hsus eq_refl).
  - destruct (read_dispatch_trigger (EvStateChanged UnconnectedState) op Hsus eq_refl)
      as (H1 & H2 & H3).
    repeat split; auto.
    destruct Hsus as (Hc & Hs & _). simpl. rewrite Hs. reflexivity.
  - intros Hex. destruct (read_run_trigger evs op Hsus Hex) as (H1 & H2 & H3).
    repeat split; auto. now rewrite H1.
  - destruct (existsb read_trigger evs) eqn:Hex.
    + destruct (read_run_trigger evs op Hsus Hex) as (H1 & _).
      rewrite H1, Hone. constructor.
    + destruct (read_run_no_trigger evs op Hsus Hex) as (_ & H2).
      rewrite H2. destruct Hsus as (_ & _ & Hr). rewrite Hr. auto.
  - intros Hnr. apply Hempty in Hnr. simpl. exact Hnr.
  - intros Hnr.
    assert (Hb : buffer dev = []).
    { apply Hempty. exact Hnr. }
    destruct dev as [st buf]. simpl in Hb. subst buf. simpl.
    destruct (Z.to_nat maxSize); reflexivity.
Qed.

Lemma read_operation_resume_sources_witness :
  ReadOperation.effects
    (ReadOperation.run
       [EvStateChanged ClosingState; EvStateChanged UnconnectedState; EvReadyRead []]
       (ReadOperation.await_suspend
          (QCoroLocalSocket.readAll {| state := ConnectedState; buffer := [] |}))) =
  [Connect readyRead; Connect stateChanged;
   Disconnect stateChanged; Disconnect readyRead; Resume].
Proof.
  destruct (read_operation_resume_sources
              (ReadOperation.await_suspend
                 (QCoroLocalSocket.readAll {| state := ConnectedState; buffer := [] |}))
              [] [EvStateChanged ClosingState; EvStateChanged UnconnectedState; EvReadyRead []]
              {| state := ConnectedState; buffer := [] |} 1)
    as (_ & _ & H & _).
  - repeat split; reflexivity.
  - destruct (H eq_refl) as [H1 _]. rewrite H1. reflexivity.
Defined.

(** ** Awaited wait operations *)

Lemma existsb_pointwise {A : Type} (f g : A -> bool) (l : list A) :
  (forall x, f x = g x) -> existsb f l = existsb g l.
Proof.
  intros Hfg. induction l as [|x l IH]; simpl; [reflexivity|].
  now rewrite Hfg, IH.
Qed.

(** An operation without a live connection and without an armed timer is
    out of reach of every event. *)
Lemma run_unsubscribed (evs : list Event) (op : WaitOperationBase.t) :
  suspended op -> mConn op = None -> mTimerActive op = false ->
  effects (run evs op) = effects op.
Proof.
  intros Hs Hc Ht.
  assert (Hex : existsb (is_trigger op) evs = false).
  { induction evs as [|e evs IH]; simpl; [reflexivity|].
    rewrite IH, orb_false_r.
    destruct e as [s| |d|]; simpl; rewrite ?Hc, ?Ht; reflexivity. }
  apply (run_no_trigger evs op Hs Hex).
Qed.

(** The state of a wait for the connected state that [co_await] has suspended. *)
Lemma await_connected_suspended (sock : QLocalSocket) (timeout_msecs : Z) :
  state sock <> ConnectedState ->
  let op := WaitForConnectedOperation.new (Some sock) (Some timeout_msecs) in
  let op' := co_await WaitForConnectedOperation.await_ready
                      WaitForConnectedOperation.await_suspend op in
  WaitForConnectedOperation.await_ready op = false /\
  mObj op' = Some sock /\
  mConn op' = Some SlotWaitForConnected /\
  suspended op' /\
  mTimerActive op' = (0 <? timeout_msecs) /\
  effects op' = Connect stateChanged :: timer_start_trace timeout_msecs /\
  teardown op' = Disconnect stateChanged :: timer_stop_trace timeout_msecs.
Proof.
  intros Hst. unfold co_await, WaitForConnectedOperation.await_ready. simpl.
  assert (E : LocalSocketState_eqb (state sock) ConnectedState = false).
  { destruct (state sock); try reflexivity. now contradiction Hst. }
  rewrite E.
  unfold WaitForConnectedOperation.await_suspend, startTimeoutTimer,
    timer_start_trace, timer_stop_trace, teardown, suspended.
  simpl. destruct (0 <? timeout_msecs); simpl; repeat split; reflexivity.
Qed.

(** The state of a wait for the disconnection that [co_await] has suspended. *)
Lemma await_disconnected_suspended (sock : QLocalSocket) (timeout_msecs : Z) :
  state sock <> UnconnectedState ->
  let op := WaitForDisconnectedOperation.new (Some sock) timeout_msecs in
  let op' := co_await WaitForDisconnectedOperation.await_ready
                      WaitForDisconnectedOperation.await_suspend op in
  WaitForDisconnectedOperation.await_ready op = false /\
  mObj op' = Some sock /\
  mConn op' = Some SlotWaitForDisconnected /\
  suspended op' /\
  mTimerActive op' = (0 <? timeout_msecs) /\
  effects op' = Connect disconnected :: timer_start_trace timeout_msecs /\
  teardown op' = Disconnect disconnected :: timer_stop_trace timeout_msecs.
Proof.
  intros Hst. unfold co_await, WaitForDisconnectedOperation.await_ready. simpl.
  assert (E : LocalSocketState_eqb (state sock) UnconnectedState = false).
  { destruct (state sock); try reflexivity. now contradiction Hst. }
  rewrite E.
  unfold WaitForDisconnectedOperation.await_suspend, startTimeoutTimer,
    timer_start_trace, timer_stop_trace, teardown, suspended.
  simpl. destruct (0 <? timeout_msecs); simpl; repeat split; reflexivity.
Qed.

Lemma is_trigger_connected (op : WaitOperationBase.t) (timeout_msecs : Z) (e : Event) :
  mConn op = Some SlotWaitForConnected -> mTimerActive op = (0 <? timeout_msecs) ->
  is_trigger op e = connected_trigger timeout_msecs e.
Proof.
  intros Hc Ht. destruct e as [s| |d|]; simpl; rewrite ?Hc, ?Ht;
    try reflexivity; destruct s; reflexivity.
Qed.

Lemma is_trigger_disconnected (op : WaitOperationBase.t) (timeout_msecs : Z) (e : Event) :
  mConn op = Some SlotWaitForDisconnected -> mTimerActive op = (0 <? timeout_msecs) ->
  is_trigger op e = disconnected_trigger timeout_msecs e.
Proof.
  intros Hc Ht. destruct e as [s| |d|]; simpl; rewrite ?Hc, ?Ht; reflexivity.
Qed.

(** The trace of a suspended operation after a run, from its triggers. *)
Lemma run_trace (evs : list Event) (op : WaitOperationBase.t) :
  suspended op ->
  effects (run evs op) =
  effects op ++ (if existsb (is_trigger op) evs then teardown op ++ [Resume] else []).
Proof.
  intros Hs. destruct (existsb (is_trigger op) evs) eqn:Hex.
  - apply (run_trigger evs op Hs Hex).
  - rewrite app_nil_r. apply (run_no_trigger evs op Hs Hex).
Qed.

Lemma await_connected_run (socket : option QLocalSocket) (timeout_msecs : Z)
    (evs : list Event) :
  let op := WaitForConnectedOperation.new socket (Some timeout_msecs) in
  effects (run evs (co_await WaitForConnectedOperation.await_ready
                             WaitForConnectedOperation.await_suspend op)) =
  if WaitForConnectedOperation.await_ready op then []
  else Connect stateChanged :: timer_start_trace timeout_msecs ++
       (if existsb (connected_trigger timeout_msecs) evs
        then Disconnect stateChanged :: timer_stop_trace timeout_msecs ++ [Resume]
        else []).
Proof.
  intros op.
  destruct (WaitForConnectedOperation.await_ready op) eqn:Hr.
  - unfold co_await. rewrite Hr.
    apply (run_unsubscribed evs op); [split|..]; reflexivity.
  - destruct socket as [sock|]; [|discriminate Hr].
    assert (Hst : state sock <> ConnectedState).
    { intros Hst. subst op. unfold WaitForConnectedOperation.await_ready in Hr.
      simpl in Hr. rewrite Hst in Hr. discriminate Hr. }
    destruct (await_connected_suspended sock timeout_msecs Hst)
      as (_ & _ & Hc & Hs & Ht & He & Htd).
    fold op in Hc, Hs, Ht, He, Htd.
    rewrite (run_trace evs _ Hs), He, Htd.
    rewrite (existsb_pointwise _ (connected_trigger timeout_msecs) evs
               (fun e => is_trigger_connected _ timeout_msecs e Hc Ht)).
    destruct (existsb (connected_trigger timeout_msecs) evs); reflexivity.
Qed.

Lemma await_disconnected_run (socket : option QLocalSocket) (timeout_msecs : Z)
    (evs : list Event) :
  let op := WaitForDisconnectedOperation.new socket timeout_msecs in
  effects (run evs (co_await WaitForDisconnectedOperation.await_ready
                             WaitForDisconnectedOperation.await_suspend op)) =
  if WaitForDisconnectedOperation.await_ready op then []
  else Connect disconnected :: timer_start_trace timeout_msecs ++
       (if existsb (disconnected_trigger timeout_msecs) evs
        then Disconnect disconnected :: timer_stop_trace timeout_msecs ++ [Resume]
        else []).
Proof.
  intros op.
  destruct (WaitForDisconnectedOperation.await_ready op) eqn:Hr.
  - unfold co_await. rewrite Hr.
    apply (run_unsubscribed evs op); [split|..]; reflexivity.
  - destruct socket as [sock|]; [|discriminate Hr].
    assert (Hst : state sock <> UnconnectedState).
    { intros Hst. subst op. unfold WaitForDisconnectedOperation.await_ready in Hr.
      simpl in Hr. rewrite Hst in Hr. discriminate Hr. }
    destruct (await_disconnected_suspended sock timeout_msecs Hst)
      as (_ & _ & Hc & Hs & Ht & He & Htd).
    fold op in Hc, Hs, Ht, He, Htd.
    rewrite (run_trace evs _ Hs), He, Htd.
    rewrite (existsb_pointwise _ (disconnected_trigger timeout_msecs) evs
               (fun e => is_trigger_disconnected _ timeout_msecs e Hc Ht)).
    destruct (existsb (disconnected_trigger timeout_msecs) evs); reflexivity.
Qed.

(** X1: whatever events follow, the trace of an awaited wait operation has
    one of three shapes.  It is empty when the ready-check is positive;
    otherwise it is the subscription to the operation's signal, then the
    arming of the timer when the timeout is positive; and once a trigger has
    been delivered it goes on with the disconnection of that signal, the
    disarming of that timer, and one continuation, after which nothing is
    added.  So every subscription and every armed timer is undone exactly
    once, and only at the resumption. *)
Theorem awaited_wait_operation_trace
    (socket : option QLocalSocket) (timeout_msecs : Z) (evs : list Event) :
  effects (run evs (co_await WaitForConnectedOperation.await_ready
                             WaitForConnectedOperation.await_suspend
                             (WaitForConnectedOperation.new socket (Some timeout_msecs)))) =
  (if WaitForConnectedOperation.await_ready
        (WaitForConnectedOperation.new socket (Some timeout_msecs))
   then []
   else Connect stateChanged :: timer_start_trace timeout_msecs ++
        (if existsb (connected_trigger timeout_msecs) evs
         then Disconnect stateChanged :: timer_stop_trace timeout_msecs ++ [Resume]
         else [])) /\
  effects (run evs (co_await WaitForDisconnectedOperation.await_ready
                             WaitForDisconnectedOperation.await_suspend
                             (WaitForDisconnectedOperation.new socket timeout_msecs))) =
  (if WaitForDisconnectedOperation.await_ready
        (WaitForDisconnectedOperation.new socket timeout_msecs)
   then []
   else Connect disconnected :: timer_start_trace timeout_msecs ++
        (if existsb (disconnected_trigger timeout_msecs) evs
         then Disconnect disconnected :: timer_stop_trace timeout_msecs ++ [Resume]
         else [])).
Proof.
  split.
  - apply await_connected_run.
  - apply await_disconnected_run.
Qed.

(** ** Waiting for the disconnection *)

(** X2: the ready-check of the awaitable of waitForDisconnected is positive
    exactly when the wrapper's socket pointer is null or the socket is in
    UnconnectedState, whatever the timeout; the awaited operation is then
    left as it was made, with no subscription and no timer.  On a live socket
    the ready-checks of waitForConnected and waitForDisconnected are never
    both positive, and on a null pointer both are. *)
Theorem wait_for_disconnected_await_ready
    (this : QCoroLocalSocket.t) (timeout_msecs timeout_msecs' : option Z) :
  let op := QCoroLocalSocket.waitForDisconnected this timeout_msecs in
  let op' := co_await WaitForDisconnectedOperation.await_ready
                      WaitForDisconnectedOperation.await_suspend op in
  (WaitForDisconnectedOperation.await_ready op = true <->
   QCoroLocalSocket.mDevice this = None \/
   exists sock, QCoroLocalSocket.mDevice this = Some sock /\
                state sock = UnconnectedState) /\
  (WaitForDisconnectedOperation.await_ready op = true ->
   op' = op /\ effects op' = [] /\ mConn op' = None /\ mTimerActive op' = false) /\
  (QCoroLocalSocket.mDevice this <> None ->
   WaitForDisconnectedOperation.await_ready op &&
   WaitForConnectedOperation.await_ready
     (QCoroLocalSocket.waitForConnected this timeout_msecs') = false) /\
  (QCoroLocalSocket.mDevice this = None ->
   WaitForDisconnectedOperation.await_ready op = true /\
   WaitForConnectedOperation.await_ready
     (QCoroLocalSocket.waitForConnected this timeout_msecs') = true).
Proof.
  intros op op'. subst op' op.
  unfold co_await, WaitForDisconnectedOperation.await_ready,
    WaitForConnectedOperation.await_ready. simpl.
  destruct (QCoroLocalSocket.mDevice this) as [sock|].
  - split; [|split; [|split]].
    + rewrite LocalSocketState_eqb_eq. split.
      * intros Hs. right. exists sock. auto.
      * intros [Hn|[sock' [Hs1 Hs2]]]; [discriminate Hn|]. now inversion Hs1.
    + intros Hr. rewrite Hr. auto.
    + intros _. destruct (state sock); reflexivity.
    + intros Hn. discriminate Hn.
  - split; [|split; [|split]]; auto.
    + split; auto.
    + intros Hn. now contradiction Hn.
Qed.

Lemma existsb_state_or_data (op : WaitOperationBase.t) (evs : list Event) :
  mConn op = Some SlotWaitForDisconnected ->
  forallb state_or_data evs = true ->
  existsb (is_trigger op) evs = false.
Proof.
  intros Hc. induction evs as [|e evs IH]; simpl; [reflexivity|].
  intros Hall. apply andb_true_iff in Hall. destruct Hall as [He Hall].
  rewrite (IH Hall), orb_false_r.
  destruct e as [s| |d|]; simpl in *; rewrite ?Hc; try reflexivity;
    discriminate He.
Qed.

(** X3: a suspended wait for the disconnection listens to the disconnected
    signal only: state changes, also the one to UnconnectedState, and
    arriving data leave it suspended with its subscription, however many
    there are; the first disconnected signal after them tears the
    subscriptions down and continues the coroutine, and what follows adds
    nothing. *)
Theorem wait_for_disconnected_events
    (op : WaitOperationBase.t) (evs evs' : list Event) :
  suspended op ->
  mConn op = Some SlotWaitForDisconnected ->
  forallb state_or_data evs = true ->
  effects (run evs op) = effects op /\
  suspended (run evs op) /\
  mConn (run evs op) = Some SlotWaitForDisconnected /\
  effects (run (evs ++ EvDisconnected :: evs') op) =
    effects op ++ teardown op ++ [Resume] /\
  mCompleted (run (evs ++ EvDisconnected :: evs') op) = true /\
  mConn (run (evs ++ EvDisconnected :: evs') op) = None.
Proof.
  intros Hs Hc Hall.
  pose proof (existsb_state_or_data op evs Hc Hall) as Hex.
  destruct (run_no_trigger evs op Hs Hex) as (Hs' & Hc' & Ht' & He').
  assert (Hex' : existsb (is_trigger op) (evs ++ EvDisconnected :: evs') = true).
  { rewrite existsb_app. simpl. rewrite Hc. apply orb_true_r. }
  destruct (run_trigger _ op Hs Hex') as (H1 & H2 & _ & H4).
  repeat split; try apply Hs'; congruence.
Qed.

Lemma wait_for_disconnected_events_witness :
  effects
    (run ([EvStateChanged ClosingState; EvStateChanged UnconnectedState] ++
          EvDisconnected :: [EvDisconnected; EvTimeout])
       (WaitForDisconnectedOperation.await_suspend
          (WaitForDisconnectedOperation.new
             (Some {| state := ConnectedState; buffer := [] |}) 500))) =
  [Connect disconnected; TimerStart 500; Disconnect disconnected; TimerStop; Resume].
Proof.
  destruct (wait_for_disconnected_events
              (WaitForDisconnectedOperation.await_suspend
                 (WaitForDisconnectedOperation.new
                    (Some {| state := ConnectedState; buffer := [] |}) 500))
              [EvStateChanged ClosingState; EvStateChanged UnconnectedState]
              [EvDisconnected; EvTimeout])
    as (_ & _ & _ & H & _).
  - split; reflexivity.
  - reflexivity.
  - reflexivity.
  - rewrite H. reflexivity.
Defined.

(** ** Connecting, from the request to the resumption *)

Lemma existsb_still_connecting (timeout_msecs : Z) (l : list LocalSocketState) :
  forallb still_connecting l = true ->
  existsb (connected_trigger timeout_msecs) (map EvStateChanged l) = false.
Proof.
  induction l as [|s l IH]; simpl; [reflexivity|].
  intros Hall. apply andb_true_iff in Hall. destruct Hall as [Hs Hall].
  rewrite (IH Hall), orb_false_r.
  destruct s; try reflexivity; discriminate Hs.
Qed.

(** X4: the ready-check of a wait for the connected state does not take a
    closing socket for finished, although a Closing notification ends the
    wait: awaited on a socket that is already in ClosingState the operation
    is suspended, the changes to Unconnected and Connecting that follow do
    not resume it, and only a later Connected or Closing notification (or the
    timer) does. *)
Theorem connect_wait_on_closing_socket
    (sock : QLocalSocket) (timeout_msecs : Z) (l : list LocalSocketState)
    (evs : list Event) :
  state sock = ClosingState ->
  forallb still_connecting l = true ->
  let op := WaitForConnectedOperation.new (Some sock) (Some timeout_msecs) in
  let op' := co_await WaitForConnectedOperation.await_ready
                      WaitForConnectedOperation.await_suspend op in
  WaitForConnectedOperation.await_ready op = false /\
  effects op' = Connect stateChanged :: timer_start_trace timeout_msecs /\
  effects (run (map EvStateChanged l) op') = effects op' /\
  effects (run (map EvStateChanged l ++ EvStateChanged ClosingState :: evs) op') =
    effects op' ++ Disconnect stateChanged :: timer_stop_trace timeout_msecs ++ [Resume].
Proof.
  intros Hst Hall op op'.
  assert (Hne : state sock <> ConnectedState) by (rewrite Hst; discriminate).
  destruct (await_connected_suspended sock timeout_msecs Hne)
    as (Hr & _ & _ & _ & _ & He & _).
  fold op in Hr, He. fold op' in He.
  pose proof (await_connected_run (Some sock) timeout_msecs (map EvStateChanged l)) as R1.
  pose proof (await_connected_run (Some sock) timeout_msecs
                (map EvStateChanged l ++ EvStateChanged ClosingState :: evs)) as R2.
  simpl in R1, R2. fold op in R1, R2. fold op' in R1, R2.
  rewrite Hr in R1, R2.
  rewrite (existsb_still_connecting timeout_msecs l Hall) in R1.
  rewrite existsb_app in R2. simpl in R2. rewrite orb_true_r in R2.
  split; [exact Hr|]. split; [exact He|]. split.
  - rewrite R1, He, app_nil_r. reflexivity.
  - rewrite R2, He. reflexivity.
Qed.

Lemma connect_wait_on_closing_socket_witness :
  effects
    (run (map EvStateChanged [UnconnectedState; ConnectingState])
       (co_await WaitForConnectedOperation.await_ready
                 WaitForConnectedOperation.await_suspend
                 (WaitForConnectedOperation.new
                    (Some {| state := ClosingState; buffer := [] |}) (Some 0)))) =
  [Connect stateChanged].
Proof.
  destruct (connect_wait_on_closing_socket
              {| state := ClosingState; buffer := [] |} 0
              [UnconnectedState; ConnectingState] [EvTimeout])
    as (_ & _ & H & _).
  - reflexivity.
  - reflexivity.
  - rewrite H. reflexivity.
Defined.

(** X5: awaiting the result of connectToServer.  When the request leaves
    the socket connected, nothing is subscribed and no timer is armed;
    otherwise the wait subscribes to stateChanged and arms a timer of 30000
    milliseconds, and it ends, once, at the first Connected or Closing
    notification or when the timer fires.  A request that has failed at once
    and left the socket unconnected is thus waited for until the timer
    fires. *)
Theorem connect_and_wait `{QLocalSocketRequests}
    (sock : QLocalSocket) (name : string) (openMode : option OpenMode)
    (evs : list Event) :
  let this := {| QCoroLocalSocket.mDevice := Some sock |} in
  let awaited (after : QLocalSocket) : list Effect :=
    if LocalSocketState_eqb (state after) ConnectedState then []
    else Connect stateChanged :: TimerStart 30000 ::
         (if existsb (connected_trigger 30000) evs
          then [Disconnect stateChanged; TimerStop; Resume]
          else []) in
  option_map
    (fun r => effects (run evs (co_await WaitForConnectedOperation.await_ready
                                         WaitForConnectedOperation.await_suspend
                                         (snd r))))
    (QCoroLocalSocket.connectToServer this openMode) =
  Some (awaited (QLocalSocket_connectToServer
                   (QCoroLocalSocket.openMode_default openMode) sock)) /\
  option_map
    (fun r => effects (run evs (co_await WaitForConnectedOperation.await_ready
                                         WaitForConnectedOperation.await_suspend
                                         (snd r))))
    (QCoroLocalSocket.connectToServer_name this name openMode) =
  Some (awaited (QLocalSocket_connectToServer_name name
                   (QCoroLocalSocket.openMode_default openMode) sock)).
Proof.
  intros this awaited. subst awaited. simpl.
  split; apply f_equal.
  - apply (await_connected_run
             (Some (QLocalSocket_connectToServer
                      (QCoroLocalSocket.openMode_default openMode) sock)) 30000 evs).
  - apply (await_connected_run
             (Some (QLocalSocket_connectToServer_name name
                      (QCoroLocalSocket.openMode_default openMode) sock)) 30000 evs).
Qed.

(** ** Durations beyond the range of int *)

Lemma static_cast_int_periodic (n k : Z) :
  static_cast_int (n + k * 2 ^ 32) = static_cast_int n.
Proof.
  unfold static_cast_int.
  replace (n + k * 2 ^ 32 + 2 ^ 31) with (n + 2 ^ 31 + k * 2 ^ 32) by lia.
  now rewrite Z.mod_add by lia.
Qed.

(** X6: the chrono overloads do not tell durations apart that differ by a
    multiple of 2^32 milliseconds: they make the same awaitable; casting
    twice is casting once; and a count from 2^31 up to 2^32 milliseconds
    reaches the int overload as a timeout of zero or less. *)
Theorem chrono_overloads_periodic (this : QCoroLocalSocket.t) (d k : Z) :
  QCoroLocalSocket.waitForConnected_chrono this (mk_milliseconds (d + k * 2 ^ 32)) =
    QCoroLocalSocket.waitForConnected_chrono this (mk_milliseconds d) /\
  QCoroLocalSocket.waitForDisconnected_chrono this (mk_milliseconds (d + k * 2 ^ 32)) =
    QCoroLocalSocket.waitForDisconnected_chrono this (mk_milliseconds d) /\
  static_cast_int (static_cast_int d) = static_cast_int d /\
  (2 ^ 31 <= d <= 2 ^ 32 ->
   static_cast_int d = d - 2 ^ 32 /\ static_cast_int d <= 0 /\
   QCoroLocalSocket.waitForConnected_chrono this (mk_milliseconds d) =
     QCoroLocalSocket.waitForConnected this (Some (d - 2 ^ 32))).
Proof.
  unfold QCoroLocalSocket.waitForConnected_chrono,
    QCoroLocalSocket.waitForDisconnected_chrono. simpl.
  rewrite static_cast_int_periodic.
  split; [reflexivity|]. split; [reflexivity|]. split.
  - apply static_cast_int_id, static_cast_int_range.
  - intros Hd.
    assert (E : static_cast_int d = d - 2 ^ 32).
    { replace d with ((d - 2 ^ 32) + 1 * 2 ^ 32) at 1 by lia.
      rewrite static_cast_int_periodic. apply static_cast_int_id.
      unfold INT_MIN, INT_MAX. lia. }
    rewrite E. repeat split. lia.
Qed.

(** ** Awaited read operations *)

(** X7: whatever events follow, the trace of an awaited read operation of
    the local socket has one of three shapes.  It is empty when the
    ready-check is positive; otherwise it is the subscription to readyRead
    and then to stateChanged; and once data has arrived or the device has
    become unconnected it goes on with the disconnection of stateChanged, the
    disconnection of readyRead and one continuation, after which nothing is
    added.  Changes to other states, the disconnected signal and timeouts
    never resume a read. *)
Theorem awaited_read_operation_trace
    (dev : QLocalSocket) (resultCb : QLocalSocket -> QByteArray * QLocalSocket)
    (evs : list Event) :
  let op := ReadOperation.new dev resultCb in
  ReadOperation.effects
    (ReadOperation.run evs
       (co_await ReadOperation.await_ready ReadOperation.await_suspend op)) =
  if ReadOperation.await_ready op then []
  else [Connect readyRead; Connect stateChanged] ++
       (if existsb read_trigger evs
        then [Disconnect stateChanged; Disconnect readyRead; Resume]
        else []).
Proof.
  intros op. unfold co_await.
  destruct (ReadOperation.await_ready op) eqn:Hr.
  - destruct (read_run_finished evs op eq_refl eq_refl) as (_ & _ & He).
    rewrite He. reflexivity.
  - assert (Hs : ReadOperation.suspended (ReadOperation.await_suspend op)).
    { repeat split; reflexivity. }
    destruct (existsb read_trigger evs) eqn:Hex.
    + destruct (read_run_trigger evs _ Hs Hex) as (He & _). rewrite He. reflexivity.
    + destruct (read_run_no_trigger evs _ Hs Hex) as (_ & He). rewrite He. reflexivity.
Qed.

(** ** The D-Bus worker *)

(** X8: the D-Bus worker logs its request and makes its one call before it
    awaits anything; after the reply it logs a warning, with the message of
    the error, exactly when the error of the reply is valid; and it logs the
    response line last in every case: a failed call does not make the worker
    stop before reporting the value of the reply. *)
Theorem dbusWorker_reports_response (response : QDBusReply) :
  firstn 2 (dbusWorker response) =
    [Log InfoMsg ["Sending PING"%string]; AsyncCall "blockingPing" 1] /\
  List.length (filter is_call (dbusWorker response)) = 1%nat /\
  existsb is_warning (dbusWorker response) = isValid (error response) /\
  filter is_warning (dbusWorker response) =
    (if isValid (error response)
     then [Log WarningMsg ["DBus call failed:"%string; message (error response)]]
     else []) /\
  last (dbusWorker response) (AsyncCall "blockingPing" 1) =
    Log InfoMsg ["Received response:"%string; value response] /\
  List.length (dbusWorker response) = (if isValid (error response) then 4 else 3)%nat.
Proof.
  unfold dbusWorker, dbusWorker_request, dbusWorker_resumed.
  destruct (isValid (error response)); simpl; repeat split; reflexivity.
Qed.
